(** * stt_recognize: batch driver for a cloud speech-to-text service

    Shallow embedding of [src/stt_recognize.py] and the properties its
    specification states about it.

    The program is sequential glue around four external collaborators
    (python-dotenv, pandas, the IBM Watson SDK and the filesystem).  The
    collaborators are modelled as oracles gathered in one record; the code
    of the repository itself ([load_env], [instantiate_stt],
    [extract_keywords], [save_json], [sst_response], [main]) is translated
    function by function into a small state-and-exception monad. *)

From Stdlib Require Import QArith Ascii.
From stdpp Require Import gmap strings list fin_maps.

Set Warnings "-clear-no-such-hyp".

Local Open Scope Z_scope.
Local Open Scope string_scope.

(** ** Python string primitives used by [os.path] *)

Module PyStr.

(** [s[:n]] for a non-negative [n]. *)
Fixpoint take (n : nat) (s : string) : string :=
  match n, s with
  | S n', String a s' => String a (take n' s')
  | _, _ => EmptyString
  end.

(** [s[n:]] for a non-negative [n]. *)
Fixpoint drop (n : nat) (s : string) : string :=
  match n, s with
  | S n', String _ s' => drop n' s'
  | _, _ => s
  end.

(** [s.rfind(c)]: index of the last occurrence of [c], or [-1].
    [i] is the index of the head of [s], [last] the best index so far. *)
Fixpoint rfind_from (c : ascii) (s : string) (i last : Z) : Z :=
  match s with
  | EmptyString => last
  | String a s' =>
      rfind_from c s' (i + 1) (if Ascii.eqb a c then i else last)
  end.

Definition rfind (c : ascii) (s : string) : Z := rfind_from c s 0 (-1).

(** [s.startswith(c)] and [s.endswith(c)] for a one-character [c]. *)
Definition startswith (c : ascii) (s : string) : bool :=
  match s with
  | String a _ => Ascii.eqb a c
  | EmptyString => false
  end.

Fixpoint endswith (c : ascii) (s : string) : bool :=
  match s with
  | EmptyString => false
  | String a EmptyString => Ascii.eqb a c
  | String _ s' => endswith c s'
  end.

(** [s == c * len(s)]: every character of [s] is [c]. *)
Fixpoint all_char (c : ascii) (s : string) : bool :=
  match s with
  | EmptyString => true
  | String a s' => Ascii.eqb a c && all_char c s'
  end.

(** [s.rstrip(c)]. *)
Fixpoint rstrip (c : ascii) (s : string) : string :=
  match s with
  | EmptyString => EmptyString
  | String a s' =>
      match rstrip c s' with
      | EmptyString => if Ascii.eqb a c then EmptyString else String a EmptyString
      | r => String a r
      end
  end.

(** [c in s]. *)
Fixpoint contains (c : ascii) (s : string) : bool :=
  match s with
  | EmptyString => false
  | String a s' => Ascii.eqb a c || contains c s'
  end.

End PyStr.

(** ** [os.path] (the POSIX flavour) *)

Module OsPath.

Definition sep : ascii := "/"%char.
Definition extsep : ascii := "."%char.

(** The [while filenameIndex < dotIndex] loop of [genericpath._splitext]:
    scans [k] characters starting at [s] and answers whether one of them
    is not a dot (the loop then returns the split), [false] when the
    loop runs to its end. *)
Fixpoint non_dot_before (k : nat) (s : string) : bool :=
  match k, s with
  | S k', String a s' =>
      if negb (Ascii.eqb a extsep) then true else non_dot_before k' s'
  | _, _ => false
  end.

(** [os.path.splitext(p)]. *)
Definition splitext (p : string) : string * string :=
  let sepIndex := PyStr.rfind sep p in
  let dotIndex := PyStr.rfind extsep p in
  if (dotIndex >? sepIndex)%Z then
    let filenameIndex := sepIndex + 1 in
    if non_dot_before (Z.to_nat (dotIndex - filenameIndex))
                      (PyStr.drop (Z.to_nat filenameIndex) p)
    then (PyStr.take (Z.to_nat dotIndex) p, PyStr.drop (Z.to_nat dotIndex) p)
    else (p, EmptyString)
  else (p, EmptyString).

(** [os.path.join(a, b)] with one component [b]. *)
Definition join (a b : string) : string :=
  if PyStr.startswith sep b then b
  else if bool_decide (a = "") || PyStr.endswith sep a then a +:+ b
  else a +:+ "/" +:+ b.

(** [os.path.dirname(p)]. *)
Definition dirname (p : string) : string :=
  let i := PyStr.rfind sep p + 1 in
  let head := PyStr.take (Z.to_nat i) p in
  if negb (bool_decide (head = "")) && negb (PyStr.all_char sep head)
  then PyStr.rstrip sep head
  else head.

End OsPath.

(** ** Data model *)

(** A spreadsheet cell as pandas surfaces it after [.values.tolist()]:
    the program passes the scalar through without coercing it to text. *)
Inductive cell :=
| CStr (s : string)
| CInt (z : Z)
| CFloat (q : Q)
| CBool (b : bool)
| CNaN.

(** The frame [pd.read_excel] returns: column labels, and the data rows
    below the header in source order. *)
Record DataFrame := {
  columns : list cell;
  rows : list (list cell)
}.

(** Every data row has one cell per column. *)
Definition rectangular (df : DataFrame) : Prop :=
  Forall (fun r => length r = length (columns df)) (rows df).

(** The transcription result: an opaque JSON document owned by the remote
    service, passed through verbatim. *)
Unset Elimination Schemes.
Inductive json :=
| JNull
| JBool (b : bool)
| JInt (z : Z)
| JFloat (q : Q)
| JString (s : string)
| JArray (items : list json)
| JObject (members : list (string * json)).
Set Elimination Schemes.

(** The exceptions that can escape the program. *)
Inductive exn :=
| IndexError (what : string)
| KeyError (key : string)
| OSError (path : string)
| ExcelError (path : string)
| ServiceError (msg : string).

(** The handle [instantiate_stt] returns. *)
Record SpeechToTextV1 := {
  authenticator : string;      (* IAMAuthenticator(api_key) *)
  service_url : string
}.

(** A file object opened with [open(path, 'rb')]. *)
Record audio_handle := {
  name : string;
  content : list Byte.byte
}.

(** The keyword arguments of one [speech_to_text.recognize] call. *)
Record recognize_args := {
  audio : audio_handle;
  content_type : string;
  model : string;
  customization_id : option string;
  keywords : list cell;
  word_alternatives_threshold : Q;
  keywords_threshold : Q;
  speaker_labels : bool;
  inactivity_timeout : Z;
  max_alternatives : Z
}.

(** Observable effects, in the order the program performs them. *)
Inductive event :=
| EvLoadDotenv (dotenv_path : string)
| EvPrint (line : string)
| EvClient (client : SpeechToTextV1)
| EvReadExcel (excel_pathfile : string) (header : Z)
| EvListdir (folder : string)
| EvRecognize (client : SpeechToTextV1) (args : recognize_args)
| EvWrite (json_pathfile : string) (data_json : json).

(** The mutable world: the process environment ([os.environ]), the files
    of the output folder, and the log of effects performed so far. *)
Record state := {
  environ : gmap string string;
  disk : gmap string json;
  trace : list event
}.

(** The external collaborators and the read-only surroundings of one run. *)
Record externals := {
  script_file : string;                                    (* __file__ *)
  argv : list string;                                      (* sys.argv *)
  (* python-dotenv: the key/value pairs parsed from the file at a path,
     [None] when there is no such file; a key without [=] has no value *)
  dotenv_values : string -> option (gmap string (option string));
  (* pandas *)
  read_excel : string -> Z -> exn + DataFrame;
  (* filesystem *)
  listdir : string -> exn + list string;
  isfile : string -> bool;
  open_rb : string -> exn + list Byte.byte;
  open_w : state -> string -> option exn;
  (* the remote service, which may answer differently over time *)
  recognize : state -> SpeechToTextV1 -> recognize_args -> exn + json
}.

(** ** The monad: state, exceptions and [sys.exit] *)

Inductive outcome (A : Type) :=
| Ok (a : A)
| Raised (e : exn)
| Exited (status : Z).
Arguments Ok {A} a.
Arguments Raised {A} e.
Arguments Exited {A} status.

Definition M (A : Type) : Type := state -> outcome A * state.

Definition ret {A} (a : A) : M A := fun s => (Ok a, s).

Definition bind {A B} (m : M A) (k : A -> M B) : M B :=
  fun s =>
    match m s with
    | (Ok a, s') => k a s'
    | (Raised e, s') => (Raised e, s')
    | (Exited n, s') => (Exited n, s')
    end.

Declare Scope py_scope.
Delimit Scope py_scope with py.
Notation "x <- m ;; k" := (bind m (fun x => k))
  (at level 100, m at next level, right associativity) : py_scope.
Notation "m ;; k" := (bind m (fun _ => k))
  (at level 100, right associativity) : py_scope.
Local Open Scope py_scope.

Definition raise {A} (e : exn) : M A := fun s => (Raised e, s).

(** [sys.exit(n)] *)
Definition sys_exit {A} (n : Z) : M A := fun s => (Exited n, s).

(** The state after one more effect is logged. *)
Definition log (s : state) (ev : event) : state :=
  {| environ := environ s; disk := disk s; trace := trace s ++ [ev] |}.

Definition emit (ev : event) : M unit := fun s => (Ok tt, log s ev).

(** [print(line)] *)
Definition print (line : string) : M unit := emit (EvPrint line).

(** An oracle answer turned into a computation. *)
Definition lift {A} (r : exn + A) : M A :=
  match r with
  | inl e => raise e
  | inr a => ret a
  end.

(** [os.getenv(key)] *)
Definition os_getenv (key : string) : M (option string) :=
  fun s => (Ok (environ s !! key), s).

(** [d[key]] on a [dict]. *)
Definition dict_get (d : gmap string string) (key : string) : M string :=
  match d !! key with
  | Some v => ret v
  | None => raise (KeyError key)
  end.

(** [for x in l: body(x)] *)
Fixpoint for_each {A} (l : list A) (body : A -> M unit) : M unit :=
  match l with
  | [] => ret tt
  | x :: l' => body x ;; for_each l' body
  end.

(** ** The program *)

Section Program.

Variable X : externals.

(** [sys.argv[i]] *)
Definition sys_argv (i : nat) : M string :=
  match argv X !! i with
  | Some a => ret a
  | None => raise (IndexError "list index out of range")
  end.

(** [load_dotenv(dotenv_path)] of python-dotenv with its default
    [override=False]: every pair of the file whose key is not yet set in
    [os.environ] and that has a value is stored there; a variable that is
    already set keeps its value; a missing file changes nothing.  The
    file is taken as readable, and its values as the parser delivers them;
    an error while opening or decoding it is outside this model. *)
Definition load_dotenv (dotenv_path : string) : M unit :=
  fun s =>
    let loaded :=
      match dotenv_values X dotenv_path with
      | Some d => environ s ∪ omap id d
      | None => environ s
      end in
    (Ok tt, {| environ := loaded; disk := disk s;
               trace := trace s ++ [EvLoadDotenv dotenv_path] |}).

Definition missing_value_msg (key : string) : string :=
  "The value of '" +:+ key +:+ "' is empty.".

Definition repeated_key_msg (key : string) : string :=
  "Repeated key: '" +:+ key +:+ "'.".

(** The [for key in keys] loop of [load_env]; [env] is the dict built so
    far.  The calls [os.getenv(key)] of one iteration read the same
    environment, so the iteration reads it once. *)
Fixpoint load_env_loop (keys : list string) (env : gmap string string)
  : M (gmap string string) :=
  match keys with
  | [] => ret env
  | key :: keys' =>
      v <- os_getenv key ;;
      match v with
      | None => print (missing_value_msg key) ;; sys_exit 1
      | Some val =>
          if bool_decide (val = "") then
            print (missing_value_msg key) ;; sys_exit 1
          else if bool_decide (key ∈ dom env) then
            print (repeated_key_msg key) ;; sys_exit 1
          else if negb (bool_decide (key ∈ dom env)) then
            load_env_loop keys' (<[key := val]> env)
          else
            print "Unexpected error on 'os.getenv(key)'." ;; sys_exit 1
      end
  end.

Definition load_env (env_file : string) (keys : list string)
  : M (gmap string string) :=
  let dotenv_path := OsPath.join (OsPath.dirname (script_file X)) env_file in
  load_dotenv dotenv_path ;;
  load_env_loop keys ∅.

(** The handle records the key and the URL it is built from; the checks
    the SDK makes on them are outside this model. *)
Definition instantiate_stt (api_key url_service : string) : M SpeechToTextV1 :=
  let speech_to_text := {| authenticator := api_key; service_url := url_service |} in
  emit (EvClient speech_to_text) ;;
  ret speech_to_text.

(** [data_frame.iloc[:, j].values.tolist()] *)
Definition iloc_column (df : DataFrame) (j : nat) : exn + list cell :=
  if bool_decide (j < length (columns df))%nat
  then inr (map (fun r => nth j r CNaN) (rows df))
  else inl (IndexError "single positional indexer is out-of-bounds").

Definition extract_keywords (excel_pathfile : string) (header : Z)
  : M (list cell) :=
  emit (EvReadExcel excel_pathfile header) ;;
  data_frame <- lift (read_excel X excel_pathfile header) ;;
  keyword <- lift (iloc_column data_frame 0) ;;
  ret keyword.

(** [with open(json_pathfile, 'w') as f: json.dump(data_json, f, ...)],
    taken as one step: either the file cannot be opened, which leaves the
    disk as it is, or the whole document is stored. *)
Definition write_json (json_pathfile : string) (data_json : json) : M unit :=
  fun s =>
    match open_w X s json_pathfile with
    | Some e => (Raised e, s)
    | None =>
        (Ok tt, {| environ := environ s;
                   disk := <[json_pathfile := data_json]> (disk s);
                   trace := trace s ++ [EvWrite json_pathfile data_json] |})
    end.

Definition json_path (transcripts_folder audio_file : string) : string :=
  let name_file := fst (OsPath.splitext audio_file) in
  transcripts_folder +:+ "/" +:+ name_file +:+ ".json".

Definition save_json (data_json : json) (audio_file transcripts_folder : string)
  : M unit :=
  let json_pathfile := json_path transcripts_folder audio_file in
  write_json json_pathfile data_json ;;
  print ("'" +:+ json_pathfile +:+ "' was saved sucessful").

(** The keyword arguments [sst_response] passes to [recognize]. *)
Definition recognize_kwargs (audio_file : audio_handle)
    (keywords : list cell) (custom_id : option string) : recognize_args :=
  {| audio := audio_file;
     content_type := "audio/mp3";
     model := "es-CO_NarrowbandModel";
     customization_id := custom_id;
     keywords := keywords;
     word_alternatives_threshold := 0.5%Q;
     keywords_threshold := 0.5%Q;
     speaker_labels := true;
     inactivity_timeout := -1;
     max_alternatives := 3 |}.

(** [speech_to_text.recognize(...).get_result()]: the request is sent,
    then the service answers or the call raises. *)
Definition call_recognize (speech_to_text : SpeechToTextV1)
    (args : recognize_args) : M json :=
  fun s =>
    let s' := log s (EvRecognize speech_to_text args) in
    match recognize X s speech_to_text args with
    | inl e => (Raised e, s')
    | inr response => (Ok response, s')
    end.

Definition sst_response (audio_pathfile : string)
    (speech_to_text : SpeechToTextV1) (keywords : list cell)
    (custom_id : option string) : M json :=
  data <- lift (open_rb X audio_pathfile) ;;
  let audio_file := {| name := audio_pathfile; content := data |} in
  response <- call_recognize speech_to_text
                (recognize_kwargs audio_file keywords custom_id) ;;
  ret response.

Definition audios_folder : string := "audios".
Definition json_folder : string := "json".

(** The body of the [for audio_file in os.listdir(audios_folder)] loop
    of [main]. *)
Definition main_loop_body (env : gmap string string)
    (speech_to_text : SpeechToTextV1) (keywords : list cell)
    (audio_file : string) : M unit :=
  let audio_pathfile := OsPath.join audios_folder audio_file in
  if isfile X audio_pathfile then
    custom_id <- dict_get env "custom_id" ;;
    data_json <- sst_response audio_pathfile speech_to_text keywords
                   (Some custom_id) ;;
    save_json data_json audio_file json_folder
  else ret tt.

Definition os_listdir (folder : string) : M (list string) :=
  emit (EvListdir folder) ;;
  lift (listdir X folder).

Definition required_keys : list string :=
  ["api_key"; "api_url"; "base_lang"; "custom_id"].

Definition main : M unit :=
  env_file <- sys_argv 1 ;;
  keywords_filepath <- sys_argv 2 ;;
  env <- load_env env_file required_keys ;;
  api_key <- dict_get env "api_key" ;;
  api_url <- dict_get env "api_url" ;;
  speech_to_text <- instantiate_stt api_key api_url ;;
  keywords <- extract_keywords keywords_filepath 0 ;;
  files <- os_listdir audios_folder ;;
  for_each files (main_loop_body env speech_to_text keywords).

End Program.


(** ** [print_json] and the codecs it goes through *)

(** A Python [str] is a sequence of code points, a [bytes] a sequence of
    integers below 256. *)
Module Codec.

Local Open Scope Z_scope.

(** [sys.byteorder] *)
Inductive byteorder := Little | Big.

Inductive unicode_error :=
| UnicodeEncodeError
| UnicodeDecodeError.

Definition is_surrogate (cp : Z) : bool := (0xD800 <=? cp) && (cp <=? 0xDFFF).

(** The four bytes of one code point. *)
Definition utf32_unit (order : byteorder) (cp : Z) : list Z :=
  let b0 := cp mod 256 in
  let b1 := (cp / 256) mod 256 in
  let b2 := (cp / 65536) mod 256 in
  let b3 := (cp / 16777216) mod 256 in
  match order with
  | Little => [b0; b1; b2; b3]
  | Big => [b3; b2; b1; b0]
  end.

Fixpoint utf32_units (order : byteorder) (text : list Z)
  : unicode_error + list Z :=
  match text with
  | [] => inr []
  | cp :: text' =>
      if is_surrogate cp then inl UnicodeEncodeError
      else match utf32_units order text' with
           | inl e => inl e
           | inr bs => inr (utf32_unit order cp ++ bs)%list
           end
  end.

(** [text.encode('utf32')]: the byte order mark in the native order, then
    four bytes per code point; a surrogate cannot be encoded. *)
Definition encode_utf32 (order : byteorder) (text : list Z)
  : unicode_error + list Z :=
  match utf32_units order text with
  | inl e => inl e
  | inr bs => inr (utf32_unit order 0xFEFF ++ bs)%list
  end.

(** A continuation byte within the bounds [lo..hi]. *)
Definition in_range (lo hi b : Z) : bool := (lo <=? b) && (b <=? hi).

(** [data.decode()]: strict UTF-8.  A lead byte announces the length of
    the sequence and bounds its first continuation byte, which excludes
    over-long forms, surrogates and code points above [0x10FFFF]. *)
Fixpoint decode_utf8 (data : list Z) : unicode_error + list Z :=
  match data with
  | [] => inr []
  | b0 :: rest =>
      if in_range 0x00 0x7F b0 then
        match decode_utf8 rest with
        | inl e => inl e
        | inr text => inr (b0 :: text)
        end
      else if in_range 0xC2 0xDF b0 then
        match rest with
        | b1 :: rest1 =>
            if in_range 0x80 0xBF b1 then
              match decode_utf8 rest1 with
              | inl e => inl e
              | inr text => inr ((b0 - 0xC0) * 64 + (b1 - 0x80) :: text)
              end
            else inl UnicodeDecodeError
        | _ => inl UnicodeDecodeError
        end
      else if in_range 0xE0 0xEF b0 then
        match rest with
        | b1 :: b2 :: rest2 =>
            let lo := if b0 =? 0xE0 then 0xA0 else 0x80 in
            let hi := if b0 =? 0xED then 0x9F else 0xBF in
            if in_range lo hi b1 && in_range 0x80 0xBF b2 then
              match decode_utf8 rest2 with
              | inl e => inl e
              | inr text =>
                  inr ((b0 - 0xE0) * 4096 + (b1 - 0x80) * 64 + (b2 - 0x80) :: text)
              end
            else inl UnicodeDecodeError
        | _ => inl UnicodeDecodeError
        end
      else if in_range 0xF0 0xF4 b0 then
        match rest with
        | b1 :: b2 :: b3 :: rest3 =>
            let lo := if b0 =? 0xF0 then 0x90 else 0x80 in
            let hi := if b0 =? 0xF4 then 0x8F else 0xBF in
            if in_range lo hi b1 && in_range 0x80 0xBF b2 && in_range 0x80 0xBF b3
            then
              match decode_utf8 rest3 with
              | inl e => inl e
              | inr text =>
                  inr ((b0 - 0xF0) * 262144 + (b1 - 0x80) * 4096
                       + (b2 - 0x80) * 64 + (b3 - 0x80) :: text)
              end
            else inl UnicodeDecodeError
        | _ => inl UnicodeDecodeError
        end
      else inl UnicodeDecodeError
  end.

(** [text.encode('utf-8')] of one code point, for comparison with the
    decoder. *)
Definition utf8_unit (cp : Z) : list Z :=
  if cp <? 0x80 then [cp]
  else if cp <? 0x800 then [0xC0 + cp / 64; 0x80 + cp mod 64]
  else if cp <? 0x10000 then
    [0xE0 + cp / 4096; 0x80 + (cp / 64) mod 64; 0x80 + cp mod 64]
  else [0xF0 + cp / 262144; 0x80 + (cp / 4096) mod 64;
        0x80 + (cp / 64) mod 64; 0x80 + cp mod 64].

(** A code point a [str] can hold and UTF-8 can carry. *)
Definition scalar (cp : Z) : Prop :=
  0 <= cp <= 0x10FFFF /\ is_surrogate cp = false.

End Codec.

Section PrintJson.

(** [sys.byteorder] of the machine. *)
Variable order : Codec.byteorder.

(** [json.dumps(data_json, indent=2, ensure_ascii=False)], the text of the
    document. *)
Variable json_dumps : json -> list Z.

(** [print_json(data_json)]: what is handed to [print], or the error
    raised before. *)
Definition print_json (data_json : json) : Codec.unicode_error + list Z :=
  match Codec.encode_utf32 order (json_dumps data_json) with
  | inl e => inl e
  | inr json_data => Codec.decode_utf8 json_data
  end.

End PrintJson.
(** ** Vocabulary of the statements *)

(** A key is usable when the environment maps it to a non-empty string. *)
Definition present (s : state) (key : string) : Prop :=
  exists val, environ s !! key = Some val /\ val <> "".

(** The path [load_env] hands to [load_dotenv]. *)
Definition dotenv_path_of (X : externals) (env_file : string) : string :=
  OsPath.join (OsPath.dirname (script_file X)) env_file.

(** The state in which [load_env] checks its keys: the one [load_dotenv]
    leaves. *)
Definition loaded (X : externals) (env_file : string) (s : state) : state :=
  snd (load_dotenv X (dotenv_path_of X env_file) s).

(** [line] contains [key] as a substring. *)
Fixpoint mentions (key line : string) : bool :=
  String.prefix key line ||
  match line with
  | EmptyString => false
  | String _ line' => mentions key line'
  end.

(** The recognition requests of a trace, by audio path, in order. *)
Fixpoint requested (t : list event) : list string :=
  match t with
  | [] => []
  | EvRecognize _ args :: t' => name (audio args) :: requested t'
  | _ :: t' => requested t'
  end.

(** The output paths written by a trace, in order. *)
Fixpoint written (t : list event) : list string :=
  match t with
  | [] => []
  | EvWrite json_pathfile _ :: t' => json_pathfile :: written t'
  | _ :: t' => written t'
  end.

(** The clients built by a trace. *)
Fixpoint clients (t : list event) : list SpeechToTextV1 :=
  match t with
  | [] => []
  | EvClient c :: t' => c :: clients t'
  | _ :: t' => clients t'
  end.

(** ** Sample surroundings used to exercise the model *)

Definition initial_state : state :=
  {| environ := ∅; disk := ∅; trace := [] |}.

Definition full_dotenv : gmap string (option string) :=
  list_to_map [("api_key", Some "k-123"); ("api_url", Some "https://stt.example");
               ("base_lang", Some "es-CO"); ("custom_id", Some "c-1")].

Definition sample_frame : DataFrame :=
  {| columns := [CStr "keyword"; CStr "weight"];
     rows := [[CStr "hola"; CInt 1]; [CStr "hola"; CInt 2]; [CInt 7; CInt 3]] |}.

Definition sample_result : json :=
  JObject [("result_index", JInt 0); ("results", JArray [])].

(** A run started as [stt_recognize.py ibm.env keywords.xlsx] from an
    installation under [/opt/stt]: the environment file holds [dotenv], the
    folder [audios] lists [entries] of which [dirs] are sub-directories,
    and the service refuses the audio paths in [failing]. *)
Definition sample_externals (dotenv : gmap string (option string))
    (entries dirs failing : list string) : externals :=
  {| script_file := "/opt/stt/stt_recognize.py";
     argv := ["stt_recognize.py"; "ibm.env"; "keywords.xlsx"];
     dotenv_values := fun p =>
       if bool_decide (p = "/opt/stt/ibm.env") then Some dotenv else None;
     read_excel := fun p h =>
       if bool_decide (p = "keywords.xlsx") then inr sample_frame
       else inl (ExcelError p);
     listdir := fun d =>
       if bool_decide (d = "audios") then inr entries else inl (OSError d);
     isfile := fun p =>
       bool_decide (p ∈ map (OsPath.join "audios") entries) &&
       negb (bool_decide (p ∈ map (OsPath.join "audios") dirs));
     open_rb := fun p => inr [];
     open_w := fun _ _ => None;
     recognize := fun _ _ args =>
       if bool_decide (name (audio args) ∈ failing)
       then inl (ServiceError "503 Service Unavailable")
       else inr sample_result |}.

(** The entries of a listing of [audios] that are regular files, in
    listing order. *)
Definition regular_files (X : externals) (files : list string) : list string :=
  List.filter (fun f => isfile X (OsPath.join audios_folder f)) files.

(** The request [main] sends for the entry [audio_file] whose content is
    [data]. *)
Definition request_of (keywords : list cell) (custom_id : string)
    (audio_file : string) (data : list Byte.byte) : recognize_args :=
  recognize_kwargs
    {| name := OsPath.join audios_folder audio_file; content := data |}
    keywords (Some custom_id).

(** The state after one entry was transcribed and its result saved. *)
Definition saved (s : state) (speech_to_text : SpeechToTextV1)
    (args : recognize_args) (audio_file : string) (data_json : json) : state :=
  let json_pathfile := json_path json_folder audio_file in
  {| environ := environ s;
     disk := <[json_pathfile := data_json]> (disk s);
     trace := trace s ++
              [EvRecognize speech_to_text args;
               EvWrite json_pathfile data_json;
               EvPrint ("'" +:+ json_pathfile +:+ "' was saved sucessful")] |}.

(** The parameters every request carries. *)
Definition fixed_parameters (args : recognize_args) : Prop :=
  content_type args = "audio/mp3" /\
  model args = "es-CO_NarrowbandModel" /\
  word_alternatives_threshold args = 0.5%Q /\
  keywords_threshold args = 0.5%Q /\
  speaker_labels args = true /\
  inactivity_timeout args = -1 /\
  max_alternatives args = 3.

(** What the batch loop may add to the trace: requests made with the one
    client, the keyword list and the configured customization identifier,
    writes into the output folder, and confirmations. *)
Definition loop_event (env : gmap string string)
    (speech_to_text : SpeechToTextV1) (keywords : list cell) (ev : event) : Prop :=
  match ev with
  | EvRecognize c args =>
      c = speech_to_text /\
      exists custom_id audio_file data,
        env !! "custom_id" = Some custom_id /\
        args = request_of keywords custom_id audio_file data
  | EvWrite json_pathfile _ =>
      exists audio_file, json_pathfile = json_path json_folder audio_file
  | EvPrint _ => True
  | _ => False
  end.

(** What [main] adds to the trace: nothing when an argument is missing;
    otherwise the load of the environment file, followed either by the one
    diagnostic of a failed validation, or by the construction of the
    client, the reading of the spreadsheet and, when the keywords could be
    extracted, the listing of [audios] and the events of the loop. *)
Definition main_events (X : externals) (s : state) (evs : list event) : Prop :=
  (evs = [] /\ (argv X !! 1%nat = None \/ argv X !! 2%nat = None)) \/
  exists env_file keywords_filepath rest,
    argv X !! 1%nat = Some env_file /\
    argv X !! 2%nat = Some keywords_filepath /\
    evs = EvLoadDotenv (dotenv_path_of X env_file) :: rest /\
    ((exists line, rest = [EvPrint line]) \/
     (exists env api_key api_url rest',
         load_env X env_file required_keys s = (Ok env, loaded X env_file s) /\
         env !! "api_key" = Some api_key /\
         env !! "api_url" = Some api_url /\
         env !! "custom_id" = environ (loaded X env_file s) !! "custom_id" /\
         let speech_to_text :=
           {| authenticator := api_key; service_url := api_url |} in
         rest = EvClient speech_to_text
                  :: EvReadExcel keywords_filepath 0 :: rest' /\
         (rest' = [] \/
          exists df keywords loop_evs,
            read_excel X keywords_filepath 0 = inr df /\
            iloc_column df 0 = inr keywords /\
            rest' = EvListdir audios_folder :: loop_evs /\
            Forall (loop_event env speech_to_text keywords) loop_evs))).

(** ** Proof automation for concrete key lists *)

Ltac no_dup := repeat (constructor; [set_solver|]); constructor.

Ltac all_present :=
  repeat (constructor; [eexists; split; [vm_compute; reflexivity|discriminate]|]);
  constructor.

(** ** Further surroundings for the examples *)

(** The sample surroundings with another process start: the script path
    [file] and the command line [args]. *)
Definition started_as (X : externals) (file : string) (args : list string)
  : externals :=
  {| script_file := file; argv := args;
     dotenv_values := dotenv_values X; read_excel := read_excel X;
     listdir := listdir X; isfile := isfile X; open_rb := open_rb X;
     open_w := open_w X; recognize := recognize X |}.

(** The sample surroundings on a filesystem where the audio files in
    [unreadable] cannot be opened and the output paths in [unwritable]
    cannot be created. *)
Definition on_faulty_disk (X : externals) (unreadable unwritable : list string)
  : externals :=
  {| script_file := script_file X; argv := argv X;
     dotenv_values := dotenv_values X; read_excel := read_excel X;
     listdir := listdir X; isfile := isfile X;
     open_rb := fun p =>
       if bool_decide (p ∈ unreadable) then inl (OSError p) else open_rb X p;
     open_w := fun s p =>
       if bool_decide (p ∈ unwritable) then Some (OSError p) else open_w X s p;
     recognize := recognize X |}.

(** A process environment in which [key] is already set to [val]. *)
Definition with_environ (s : state) (key val : string) : state :=
  {| environ := <[key := val]> (environ s); disk := disk s; trace := trace s |}.

(** The diagnostic of the last branch of the loop of [load_env]. *)
Definition unexpected_msg : string := "Unexpected error on 'os.getenv(key)'.".

(** The sample surroundings without a folder to list. *)
Definition without_folders (X : externals) : externals :=
  {| script_file := script_file X; argv := argv X;
     dotenv_values := dotenv_values X; read_excel := read_excel X;
     listdir := fun d => inl (OSError d); isfile := isfile X;
     open_rb := open_rb X; open_w := open_w X; recognize := recognize X |}.

(** ** The header argument of [pd.read_excel] *)

(** The frame pandas builds from the rows of a worksheet when [header] is
    an integer within the sheet.  pandas documents [header] as the
    0-indexed row to use for the column labels: the rows before it are
    skipped, row [header] gives the labels and the rows after it are the
    data. *)
Definition frame_of_sheet (sheet : list (list cell)) (header : nat) : DataFrame :=
  {| columns := nth header sheet [];
     rows := drop (S header) sheet |}.

(** Surroundings in which every spreadsheet path holds the worksheet
    [sheet], read as pandas reads it. *)
Definition with_sheet (X : externals) (sheet : list (list cell)) : externals :=
  {| script_file := script_file X; argv := argv X;
     dotenv_values := dotenv_values X;
     read_excel := fun p header =>
       if (0 <=? header)%Z && (header <? Z.of_nat (length sheet))%Z
       then inr (frame_of_sheet sheet (Z.to_nat header))
       else inl (ExcelError p);
     listdir := listdir X; isfile := isfile X; open_rb := open_rb X;
     open_w := open_w X; recognize := recognize X |}.

(** A worksheet with one header row and three data rows. *)
Definition sample_sheet : list (list cell) :=
  [[CStr "keyword"; CStr "weight"];
   [CStr "hola"; CInt 1];
   [CStr "adios"; CInt 2];
   [CStr "hola"; CInt 3]].

(** ** The run once the client is built *)

(** Lines 87-94 of [main]: what follows [instantiate_stt], given the
    configuration [env], the client and the second argument. *)
Definition main_after_client (X : externals) (env : gmap string string)
    (speech_to_text : SpeechToTextV1) (keywords_filepath : string) : M unit :=
  (keywords <- extract_keywords X keywords_filepath 0 ;;
   files <- os_listdir X audios_folder ;;
   for_each files (main_loop_body X env speech_to_text keywords))%py.

(** ** The model on concrete inputs *)

Example splitext_mp3 : OsPath.splitext "clip_01.mp3" = ("clip_01", ".mp3").
Proof. reflexivity. Qed.

Example splitext_none : OsPath.splitext "clip" = ("clip", "").
Proof. reflexivity. Qed.

Example splitext_hidden : OsPath.splitext ".bashrc" = (".bashrc", "").
Proof. reflexivity. Qed.

Example splitext_two : OsPath.splitext "a.tar.gz" = ("a.tar", ".gz").
Proof. reflexivity. Qed.

Example join_rel : OsPath.join "audios" "x.mp3" = "audios/x.mp3".
Proof. reflexivity. Qed.

Example join_abs : OsPath.join "/opt/stt" "/etc/ibm.env" = "/etc/ibm.env".
Proof. reflexivity. Qed.

Example dirname_abs : OsPath.dirname "/opt/app/stt_recognize.py" = "/opt/app".
Proof. reflexivity. Qed.

Example dirname_bare : OsPath.dirname "stt_recognize.py" = "".
Proof. reflexivity. Qed.

Example dirname_root : OsPath.dirname "/stt_recognize.py" = "/".
Proof. reflexivity. Qed.

(** A whole run over two regular files and one sub-directory. *)
Example main_two_files :
  let r := main (sample_externals full_dotenv ["a.mp3"; "b.wav"; "sub"] ["sub"] [])
             initial_state in
  fst r = Ok tt /\
  requested (trace (snd r)) = ["audios/a.mp3"; "audios/b.wav"] /\
  written (trace (snd r)) = ["json/a.json"; "json/b.json"] /\
  map fst (map_to_list (disk (snd r))) = ["json/a.json"; "json/b.json"].
Proof. repeat split; vm_compute; reflexivity. Qed.

(** A run whose first request is refused. *)
Example main_first_request_fails :
  let r := main (sample_externals full_dotenv ["a.mp3"; "b.mp3"; "c.mp3"] []
                   ["audios/a.mp3"]) initial_state in
  fst r = Raised (ServiceError "503 Service Unavailable") /\
  requested (trace (snd r)) = ["audios/a.mp3"] /\
  written (trace (snd r)) = [] /\
  disk (snd r) = ∅.
Proof. repeat split; vm_compute; reflexivity. Qed.

(** A run without its arguments. *)
Example main_no_arguments :
  let X := sample_externals full_dotenv [] [] [] in
  main {| script_file := script_file X; argv := ["stt_recognize.py"];
          dotenv_values := dotenv_values X; read_excel := read_excel X;
          listdir := listdir X; isfile := isfile X; open_rb := open_rb X;
          open_w := open_w X; recognize := recognize X |} initial_state =
  (Raised (IndexError "list index out of range"), initial_state).
Proof. reflexivity. Qed.

(** The codecs on a short text: [h], [e] with an acute accent, the euro
    sign and an emoji. *)
Example decode_utf8_text :
  Codec.decode_utf8 [0x68; 0xC3; 0xA9; 0xE2; 0x82; 0xAC; 0xF0; 0x9F; 0x98; 0x80] =
  inr [0x68; 0xE9; 0x20AC; 0x1F600]%Z.
Proof. reflexivity. Qed.

Example decode_utf8_rejects :
  Codec.decode_utf8 [0xC0; 0x80] = inl Codec.UnicodeDecodeError /\
  Codec.decode_utf8 [0xED; 0xA0; 0x80] = inl Codec.UnicodeDecodeError /\
  Codec.decode_utf8 [0xF4; 0x90; 0x80; 0x80] = inl Codec.UnicodeDecodeError /\
  Codec.decode_utf8 [0xE2; 0x82] = inl Codec.UnicodeDecodeError.
Proof. repeat split. Qed.

Example encode_utf32_text :
  Codec.encode_utf32 Codec.Little [0x68; 0x1F600] =
  inr [255; 254; 0; 0; 104; 0; 0; 0; 0; 246; 1; 0]%Z.
Proof. reflexivity. Qed.

(** ** Facts about the string primitives *)

Lemma append_empty_r s : s +:+ "" = s.
Proof.
  induction s as [|a s IH]; [reflexivity|].
  change (String a (s +:+ "") = String a s). now rewrite IH.
Qed.

Lemma take_drop n s : PyStr.take n s +:+ PyStr.drop n s = s.
Proof.
  revert s; induction n as [|n IH]; intros [|a s]; try reflexivity.
  change (String a (PyStr.take n s +:+ PyStr.drop n s) = String a s).
  now rewrite IH.
Qed.

Lemma contains_drop c n s :
  PyStr.contains c s = false -> PyStr.contains c (PyStr.drop n s) = false.
Proof.
  revert s; induction n as [|n IH]; intros [|a s]; simpl; auto.
  intros H. apply orb_false_iff in H as [_ H]. now apply IH.
Qed.

Lemma drop_drop n m s : PyStr.drop n (PyStr.drop m s) = PyStr.drop (m + n) s.
Proof.
  revert s; induction m as [|m IH]; intros s; simpl; [reflexivity|].
  destruct s as [|a s]; simpl; [now destruct n|apply IH].
Qed.

(** [rfind] answers [last] when the character does not occur, and
    otherwise the index of an occurrence after which there is none. *)
Lemma rfind_from_spec c s i last :
  let r := PyStr.rfind_from c s i last in
  (r = last /\ PyStr.contains c s = false) \/
  (exists k, r = i + Z.of_nat k /\
             (exists t, PyStr.drop k s = String c t /\ PyStr.contains c t = false)).
Proof.
  revert i last; induction s as [|a s IH]; intros i last; simpl.
  - left; split; reflexivity.
  - destruct (IH (i + 1) (if Ascii.eqb a c then i else last))
      as [[Hr Hc]|(k & Hr & t & Hd & Ht)].
    + destruct (Ascii.eqb_spec a c) as [->|Hne].
      * right. exists 0%nat. split; [lia|]. exists s. split; [reflexivity|exact Hc].
      * left. split; [exact Hr|]. exact Hc.
    + right. exists (S k). split; [lia|]. exists t. split; [exact Hd|exact Ht].
Qed.

Lemma rfind_spec c s :
  (PyStr.rfind c s = -1 /\ PyStr.contains c s = false) \/
  (exists k, PyStr.rfind c s = Z.of_nat k /\
             (exists t, PyStr.drop k s = String c t /\ PyStr.contains c t = false)).
Proof.
  unfold PyStr.rfind.
  destruct (rfind_from_spec c s 0 (-1)) as [H|(k & Hr & H)]; [now left|].
  right. exists k. split; [lia|exact H].
Qed.

(** [splitext] cuts the name in two; the extension is empty or is a dot
    followed by characters that are neither dots nor separators. *)
Lemma splitext_spec p :
  let (root, ext) := OsPath.splitext p in
  p = root +:+ ext /\
  (ext = "" \/
   exists e, ext = String OsPath.extsep e /\
             PyStr.contains OsPath.extsep e = false /\
             PyStr.contains OsPath.sep e = false).
Proof.
  unfold OsPath.splitext.
  destruct (Z.gtb_spec (PyStr.rfind OsPath.extsep p) (PyStr.rfind OsPath.sep p))
    as [Hgt|_]; cbv beta iota zeta;
    [|split; [now rewrite append_empty_r|now left]].
  destruct (OsPath.non_dot_before _ _); cbv beta iota zeta;
    [|split; [now rewrite append_empty_r|now left]].
  split; [now rewrite take_drop|]. right.
  destruct (rfind_spec OsPath.extsep p) as [[Hd _]|(k & Hd & t & Hk & Ht)].
  { destruct (rfind_spec OsPath.sep p) as [[Hs _]|(j & Hs & _)]; lia. }
  rewrite Hd, Nat2Z.id, Hk. exists t. split; [reflexivity|]. split; [exact Ht|].
  assert (Ht' : t = PyStr.drop 1 (PyStr.drop k p)) by now rewrite Hk.
  rewrite drop_drop in Ht'. subst t.
  destruct (rfind_spec OsPath.sep p) as [[_ Hs]|(j & Hs & u & Hj & Hu)].
  - now apply contains_drop.
  - assert (Hu' : u = PyStr.drop 1 (PyStr.drop j p)) by now rewrite Hj.
    rewrite drop_drop in Hu'. subst u.
    replace (k + 1)%nat with ((j + 1) + (k - j))%nat by lia.
    rewrite <- drop_drop. now apply contains_drop.
Qed.

(** ** The configuration loader *)

Lemma load_env_loop_cons key keys env s :
  load_env_loop (key :: keys) env s =
  match environ s !! key with
  | None => (Exited 1, log s (EvPrint (missing_value_msg key)))
  | Some val =>
      if bool_decide (val = "") then
        (Exited 1, log s (EvPrint (missing_value_msg key)))
      else if bool_decide (key ∈ dom env) then
        (Exited 1, log s (EvPrint (repeated_key_msg key)))
      else load_env_loop keys (<[key := val]> env) s
  end.
Proof.
  cbn [load_env_loop]. unfold bind at 1, os_getenv.
  destruct (environ s !! key) as [val|]; [|reflexivity].
  destruct (bool_decide (val = "")); [reflexivity|].
  destruct (bool_decide (key ∈ dom env)); reflexivity.
Qed.

Lemma not_present_lookup s key :
  ~ present s key -> environ s !! key = None \/ environ s !! key = Some "".
Proof.
  intros H. destruct (environ s !! key) as [val|] eqn:E; [|now left].
  destruct (decide (val = "")) as [->|Hne]; [now right|].
  exfalso. apply H. exists val. now rewrite E.
Qed.

(** The loop stops at the first key that is unusable: nothing before it
    is unusable or repeated. *)
Lemma load_env_loop_missing pre key post env s :
  Forall (present s) pre -> NoDup pre -> (forall k, k ∈ pre -> k ∉ dom env) ->
  ~ present s key ->
  load_env_loop (pre ++ key :: post) env s =
  (Exited 1, log s (EvPrint (missing_value_msg key))).
Proof.
  revert env; induction pre as [|k pre IH]; intros env Hp Hnd Hfresh Hkey.
  - rewrite app_nil_l, load_env_loop_cons.
    destruct (not_present_lookup _ _ Hkey) as [-> | ->]; reflexivity.
  - rewrite <- app_comm_cons, load_env_loop_cons.
    apply Forall_cons in Hp as [(val & Hv & Hne) Hp].
    apply NoDup_cons in Hnd as [Hk Hnd].
    rewrite Hv, bool_decide_eq_false_2 by exact Hne.
    rewrite bool_decide_eq_false_2 by (apply Hfresh; left).
    apply IH; try assumption.
    intros k' Hk'. rewrite dom_insert_L.
    assert (k' <> k) by (intros ->; contradiction).
    specialize (Hfresh k' ltac:(now right)). set_solver.
Qed.

(** The loop stops at the first repeated key when every key up to it is
    usable. *)
Lemma load_env_loop_repeated pre key post env s :
  Forall (present s) pre -> NoDup pre -> (forall k, k ∈ pre -> k ∉ dom env) ->
  present s key -> key ∈ pre \/ key ∈ dom env ->
  load_env_loop (pre ++ key :: post) env s =
  (Exited 1, log s (EvPrint (repeated_key_msg key))).
Proof.
  revert env; induction pre as [|k pre IH]; intros env Hp Hnd Hfresh Hkey Hin.
  - rewrite app_nil_l, load_env_loop_cons.
    destruct Hkey as (val & -> & Hne). destruct Hin as [Hin|Hin]; [inversion Hin|].
    rewrite bool_decide_eq_false_2 by exact Hne.
    now rewrite bool_decide_eq_true_2.
  - rewrite <- app_comm_cons, load_env_loop_cons.
    apply Forall_cons in Hp as [(val & Hv & Hne) Hp].
    apply NoDup_cons in Hnd as [Hk Hnd].
    rewrite Hv, bool_decide_eq_false_2 by exact Hne.
    rewrite bool_decide_eq_false_2 by (apply Hfresh; left).
    apply IH; try assumption.
    + intros k' Hk'. rewrite dom_insert_L.
      assert (k' <> k) by (intros ->; contradiction).
      specialize (Hfresh k' ltac:(now right)). set_solver.
    + rewrite dom_insert_L. destruct Hin as [Hin|Hin]; [|set_solver].
      apply elem_of_cons in Hin as [->|Hin]; [right; set_solver|now left].
Qed.

(** When every key is usable and none is repeated the loop returns the
    dict of the keys, and touches nothing. *)
Lemma load_env_loop_ok keys env s :
  Forall (present s) keys -> NoDup keys -> (forall k, k ∈ keys -> k ∉ dom env) ->
  exists env',
    load_env_loop keys env s = (Ok env', s) /\
    dom env' = list_to_set keys ∪ dom env /\
    (forall k, k ∈ keys -> env' !! k = environ s !! k) /\
    (forall k, k ∉ keys -> env' !! k = env !! k).
Proof.
  revert env; induction keys as [|k keys IH]; intros env Hp Hnd Hfresh.
  - exists env. split; [reflexivity|]. split; [set_solver|].
    split; [intros k Hk; inversion Hk|reflexivity].
  - rewrite load_env_loop_cons.
    apply Forall_cons in Hp as [(val & Hv & Hne) Hp].
    apply NoDup_cons in Hnd as [Hk Hnd].
    rewrite Hv, bool_decide_eq_false_2 by exact Hne.
    rewrite bool_decide_eq_false_2 by (apply Hfresh; left).
    destruct (IH (<[k := val]> env) Hp Hnd) as (env' & Hrun & Hdom & Hin & Hout).
    { intros k' Hk'. rewrite dom_insert_L.
      assert (k' <> k) by (intros ->; contradiction).
      specialize (Hfresh k' ltac:(now right)). set_solver. }
    exists env'. split; [exact Hrun|]. split.
    { rewrite Hdom, dom_insert_L. set_solver. }
    split.
    + intros k' Hk'. apply elem_of_cons in Hk' as [->|Hk']; [|now apply Hin].
      rewrite (Hout k Hk), lookup_insert_eq. now rewrite Hv.
    + intros k' Hk'. apply not_elem_of_cons in Hk' as [Hne' Hk'].
      rewrite (Hout k' Hk'). now rewrite lookup_insert_ne.
Qed.

Lemma present_dec s key : {present s key} + {~ present s key}.
Proof.
  unfold present. destruct (environ s !! key) as [val|].
  - destruct (decide (val = "")) as [->|Hne].
    + right. intros (v & [= <-] & Hv). now apply Hv.
    + left. now exists val.
  - right. intros (v & [=] & _).
Qed.

(** A key list is either clean (usable keys, no repetition, nothing
    already seen) or splits at its first faulty key. *)
Lemma first_fault_split (s : state) (keys : list string) (seen : gset string) :
  (Forall (present s) keys /\ NoDup keys /\ (forall k, k ∈ keys -> k ∉ seen)) \/
  (exists (pre : list string) key post,
      keys = (pre ++ key :: post)%list /\
      Forall (present s) pre /\ NoDup pre /\ (forall k, k ∈ pre -> k ∉ seen) /\
      (~ present s key \/ (present s key /\ (key ∈ pre \/ key ∈ seen)))).
Proof.
  revert seen; induction keys as [|k keys IH]; intros seen.
  - left. split; [constructor|]. split; [constructor|]. intros k Hk; inversion Hk.
  - destruct (present_dec s k) as [Hk|Hk].
    2:{ right. exists [], k, keys. split; [reflexivity|]. split; [constructor|].
        split; [constructor|]. split; [intros k' Hk'; inversion Hk'|now left]. }
    destruct (decide (k ∈ seen)) as [Hs|Hs].
    { right. exists [], k, keys. split; [reflexivity|]. split; [constructor|].
      split; [constructor|]. split; [intros k' Hk'; inversion Hk'|].
      right. split; [exact Hk|now right]. }
    destruct (IH ({[k]} ∪ seen)) as [(Hp & Hnd & Hf)|(pre & key & post & -> & Hp & Hnd & Hf & Hkey)].
    + left. split; [now constructor|]. split.
      * constructor; [|exact Hnd]. intros Hin. apply (Hf k Hin). set_solver.
      * intros k' Hk'. apply elem_of_cons in Hk' as [->|Hk']; [exact Hs|].
        specialize (Hf k' Hk'). set_solver.
    + right. exists (k :: pre), key, post. split; [reflexivity|].
      split; [now constructor|]. split.
      { constructor; [|exact Hnd]. intros Hin. apply (Hf k Hin). set_solver. }
      split.
      { intros k' Hk'. apply elem_of_cons in Hk' as [->|Hk']; [exact Hs|].
        specialize (Hf k' Hk'). set_solver. }
      destruct Hkey as [Hkey|[Hkey Hin]]; [now left|]. right. split; [exact Hkey|].
      destruct Hin as [Hin|Hin]; [left; now right|].
      apply elem_of_union in Hin as [Hin|Hin]; [|now right].
      apply elem_of_singleton in Hin as ->. left; now left.
Qed.

(** Whatever the key list, the loop either returns with the state untouched
    or prints one diagnostic naming a key of the list and exits with 1. *)
Lemma load_env_loop_cases keys env s :
  (Forall (present s) keys /\ NoDup keys /\ (forall k, k ∈ keys -> k ∉ dom env) /\
   exists env', load_env_loop keys env s = (Ok env', s)) \/
  (exists key, key ∈ keys /\
     ((~ present s key /\
       load_env_loop keys env s =
       (Exited 1, log s (EvPrint (missing_value_msg key)))) \/
      (present s key /\
       load_env_loop keys env s =
       (Exited 1, log s (EvPrint (repeated_key_msg key)))))).
Proof.
  destruct (first_fault_split s keys (dom env))
    as [(Hp & Hnd & Hf)|(pre & key & post & -> & Hp & Hnd & Hf & Hkey)].
  - left. split; [exact Hp|]. split; [exact Hnd|]. split; [exact Hf|].
    destruct (load_env_loop_ok keys env s Hp Hnd Hf) as (env' & Hrun & _).
    now exists env'.
  - right. exists key. split; [apply elem_of_app; right; left|].
    destruct Hkey as [Hkey|[Hkey Hin]].
    + left. split; [exact Hkey|]. now apply load_env_loop_missing.
    + right. split; [exact Hkey|]. now apply load_env_loop_repeated.
Qed.

(** ** Facts about the vocabulary *)

Lemma prefix_append k b : String.prefix k (k +:+ b) = true.
Proof.
  induction k as [|a k IH]; [now destruct b|].
  change (String.prefix (String a k) (String a (k +:+ b)) = true).
  cbn [String.prefix]. destruct (ascii_dec a a); [exact IH|congruence].
Qed.

Lemma mentions_infix a k b : mentions k (a +:+ k +:+ b) = true.
Proof.
  induction a as [|c a IH].
  - change ("" +:+ k +:+ b) with (k +:+ b).
    destruct (k +:+ b) eqn:E; cbn [mentions]; rewrite <- E, prefix_append; reflexivity.
  - change (String c a +:+ k +:+ b) with (String c (a +:+ k +:+ b)).
    cbn [mentions]. rewrite IH. apply orb_true_r.
Qed.

Lemma mentions_missing_value_msg k : mentions k (missing_value_msg k) = true.
Proof. apply mentions_infix. Qed.

Lemma mentions_repeated_key_msg k : mentions k (repeated_key_msg k) = true.
Proof. apply mentions_infix. Qed.

Lemma requested_app t1 t2 :
  requested (t1 ++ t2) = (requested t1 ++ requested t2)%list.
Proof.
  induction t1 as [|ev t1 IH]; [reflexivity|].
  destruct ev; cbn [requested app]; rewrite ?IH; reflexivity.
Qed.

Lemma written_app t1 t2 :
  written (t1 ++ t2) = (written t1 ++ written t2)%list.
Proof.
  induction t1 as [|ev t1 IH]; [reflexivity|].
  destruct ev; cbn [written app]; rewrite ?IH; reflexivity.
Qed.

Lemma clients_app t1 t2 :
  clients (t1 ++ t2) = (clients t1 ++ clients t2)%list.
Proof.
  induction t1 as [|ev t1 IH]; [reflexivity|].
  destruct ev; cbn [clients app]; rewrite ?IH; reflexivity.
Qed.

(** ** Facts about [os.path.join] and [os.path.dirname] *)

Lemma startswith_append c a b :
  PyStr.startswith c a = true -> PyStr.startswith c (a +:+ b) = true.
Proof. destruct a as [|x a]; [discriminate|exact (fun H => H)]. Qed.

Lemma rstrip_empty c s : PyStr.rstrip c s = "" -> PyStr.all_char c s = true.
Proof.
  induction s as [|a s IH]; [reflexivity|]. cbn [PyStr.rstrip PyStr.all_char].
  destruct (PyStr.rstrip c s) as [|b r]; [|discriminate].
  destruct (Ascii.eqb a c); [intros _; now apply IH|discriminate].
Qed.

Lemma startswith_rstrip c s :
  PyStr.startswith c s = true -> PyStr.all_char c s = false ->
  PyStr.startswith c (PyStr.rstrip c s) = true.
Proof.
  destruct s as [|a s]; [discriminate|]. cbn [PyStr.startswith PyStr.all_char PyStr.rstrip].
  intros Ha Hall. rewrite Ha in *. cbn [andb] in Hall.
  destruct (PyStr.rstrip c s) as [|b r] eqn:E; [|exact Ha].
  apply rstrip_empty in E. congruence.
Qed.

Lemma rfind_from_lower c s i last :
  0 <= i -> -1 <= last -> -1 <= PyStr.rfind_from c s i last.
Proof.
  revert i last; induction s as [|a s IH]; intros i last Hi Hl; [exact Hl|].
  cbn [PyStr.rfind_from]. apply IH; [lia|]. destruct (Ascii.eqb a c); lia.
Qed.

Lemma rfind_from_found c s i last :
  0 <= i -> 0 <= last -> 0 <= PyStr.rfind_from c s i last.
Proof.
  revert i last; induction s as [|a s IH]; intros i last Hi Hl; [exact Hl|].
  cbn [PyStr.rfind_from]. apply IH; [lia|]. destruct (Ascii.eqb a c); lia.
Qed.

(** The directory of an absolute path is absolute. *)
Lemma dirname_absolute p :
  PyStr.startswith OsPath.sep p = true ->
  PyStr.startswith OsPath.sep (OsPath.dirname p) = true.
Proof.
  intros Hp. unfold OsPath.dirname.
  assert (Hhead : PyStr.startswith OsPath.sep
                    (PyStr.take (Z.to_nat (PyStr.rfind OsPath.sep p + 1)) p) = true).
  { destruct p as [|a p]; [discriminate|]. cbn [PyStr.startswith] in Hp.
    unfold PyStr.rfind. cbn [PyStr.rfind_from]. rewrite Hp.
    pose proof (rfind_from_found OsPath.sep p (0 + 1) 0 ltac:(lia) ltac:(lia)) as Hr.
    destruct (Z.to_nat (PyStr.rfind_from OsPath.sep p (0 + 1) 0 + 1)) eqn:E; [lia|].
    exact Hp. }
  destruct (negb (bool_decide _) && negb (PyStr.all_char _ _)) eqn:E; [|exact Hhead].
  apply andb_true_iff in E as [_ E]. apply negb_true_iff in E.
  now apply startswith_rstrip.
Qed.

(** Joining onto an absolute directory gives an absolute path. *)
Lemma join_absolute a b :
  PyStr.startswith OsPath.sep a = true ->
  PyStr.startswith OsPath.sep (OsPath.join a b) = true.
Proof.
  intros Ha. unfold OsPath.join.
  destruct (PyStr.startswith OsPath.sep b) eqn:Hb; [exact Hb|].
  destruct (bool_decide (a = "") || PyStr.endswith OsPath.sep a);
    now apply startswith_append.
Qed.

(** A relative name joined onto a directory lies under that directory. *)
Lemma join_relative a b :
  PyStr.startswith OsPath.sep b = false -> a <> "" ->
  OsPath.join a b =
  if PyStr.endswith OsPath.sep a then a +:+ b else a +:+ "/" +:+ b.
Proof.
  intros Hb Ha. unfold OsPath.join. rewrite Hb.
  now rewrite bool_decide_eq_false_2.
Qed.

(** ** [splitext] on the names of directory entries *)

Lemma rfind_from_absent c s i last :
  PyStr.contains c s = false -> PyStr.rfind_from c s i last = last.
Proof.
  revert i last; induction s as [|a s IH]; intros i last H; [reflexivity|].
  cbn [PyStr.contains] in H. apply orb_false_iff in H as [Ha Hs].
  cbn [PyStr.rfind_from]. rewrite Ha. now apply IH.
Qed.

Lemma rfind_from_last c a t i last :
  PyStr.contains c t = false ->
  PyStr.rfind_from c (a +:+ String c t) i last = i + Z.of_nat (String.length a).
Proof.
  intros Ht. revert i last; induction a as [|x a IH]; intros i last.
  - change ("" +:+ String c t) with (String c t). cbn [PyStr.rfind_from String.length].
    rewrite Ascii.eqb_refl, rfind_from_absent by exact Ht. lia.
  - change (String x a +:+ String c t) with (String x (a +:+ String c t)).
    cbn [PyStr.rfind_from String.length]. rewrite IH. lia.
Qed.

Lemma take_append a b : PyStr.take (String.length a) (a +:+ b) = a.
Proof.
  induction a as [|x a IH]; [now destruct b|].
  change (String x a +:+ b) with (String x (a +:+ b)).
  cbn [String.length PyStr.take]. now rewrite IH.
Qed.

Lemma drop_append a b : PyStr.drop (String.length a) (a +:+ b) = b.
Proof.
  induction a as [|x a IH]; [now destruct b|].
  change (String x a +:+ b) with (String x (a +:+ b)).
  cbn [String.length PyStr.drop]. exact IH.
Qed.

Lemma non_dot_before_append stem rest :
  OsPath.non_dot_before (String.length stem) (stem +:+ rest) =
  negb (PyStr.all_char OsPath.extsep stem).
Proof.
  induction stem as [|x stem IH]; [reflexivity|].
  change (String x stem +:+ rest) with (String x (stem +:+ rest)).
  cbn [String.length OsPath.non_dot_before PyStr.all_char].
  destruct (Ascii.eqb x OsPath.extsep); [exact IH|reflexivity].
Qed.

(** A name without separator whose last dot follows a character that is
    not a dot is split at that dot. *)
Lemma splitext_last_dot stem e :
  PyStr.contains OsPath.sep (stem +:+ String OsPath.extsep e) = false ->
  PyStr.contains OsPath.extsep e = false ->
  PyStr.all_char OsPath.extsep stem = false ->
  OsPath.splitext (stem +:+ String OsPath.extsep e) = (stem, String OsPath.extsep e).
Proof.
  intros Hsep He Hstem. unfold OsPath.splitext, PyStr.rfind.
  rewrite (rfind_from_absent _ _ _ _ Hsep), (rfind_from_last _ _ _ _ _ He).
  destruct (Z.gtb_spec (0 + Z.of_nat (String.length stem)) (-1)) as [_|H]; [|lia].
  replace (Z.to_nat (0 + Z.of_nat (String.length stem) - (-1 + 1)))
    with (String.length stem) by lia.
  replace (Z.to_nat (-1 + 1)) with 0%nat by lia.
  replace (Z.to_nat (0 + Z.of_nat (String.length stem)))
    with (String.length stem) by lia.
  change (PyStr.drop 0 ?s) with s.
  rewrite non_dot_before_append, Hstem, take_append, drop_append. reflexivity.
Qed.

(** A name without a dot has no extension. *)
Lemma splitext_no_dot p :
  PyStr.contains OsPath.extsep p = false -> OsPath.splitext p = (p, "").
Proof.
  intros Hdot. unfold OsPath.splitext, PyStr.rfind.
  rewrite (rfind_from_absent _ _ _ _ Hdot).
  pose proof (rfind_from_lower OsPath.sep p 0 (-1) ltac:(lia) ltac:(lia)).
  destruct (Z.gtb_spec (-1) (PyStr.rfind_from OsPath.sep p 0 (-1))); [lia|reflexivity].
Qed.

(** ** [dirname] of a directory, a separator and a base name *)

Lemma take_append_more a b n :
  PyStr.take (String.length a + n) (a +:+ b) = a +:+ PyStr.take n b.
Proof.
  induction a as [|x a IH]; [reflexivity|].
  change (String x a +:+ b) with (String x (a +:+ b)).
  cbn [String.length Nat.add PyStr.take]. rewrite IH. reflexivity.
Qed.

Lemma all_char_append c a b :
  PyStr.all_char c (a +:+ b) = PyStr.all_char c a && PyStr.all_char c b.
Proof.
  induction a as [|x a IH]; [reflexivity|].
  change (String x a +:+ b) with (String x (a +:+ b)).
  cbn [PyStr.all_char]. rewrite IH. now rewrite andb_assoc.
Qed.

Lemma all_char_endswith c s :
  PyStr.all_char c s = true -> s <> "" -> PyStr.endswith c s = true.
Proof.
  induction s as [|x s IH]; [contradiction|]. cbn [PyStr.all_char].
  intros H _. apply andb_true_iff in H as [Hx Hs].
  destruct s as [|y s]; [exact Hx|]. cbn [PyStr.endswith]. now apply IH.
Qed.

Lemma rstrip_snoc c s : PyStr.rstrip c (s +:+ String c "") = PyStr.rstrip c s.
Proof.
  induction s as [|x s IH].
  - change ("" +:+ String c "") with (String c "").
    cbn [PyStr.rstrip]. now rewrite Ascii.eqb_refl.
  - change (String x s +:+ String c "") with (String x (s +:+ String c "")).
    cbn [PyStr.rstrip]. now rewrite IH.
Qed.

Lemma rstrip_id c s : PyStr.endswith c s = false -> PyStr.rstrip c s = s.
Proof.
  induction s as [|x s IH]; [reflexivity|]. intros H. cbn [PyStr.rstrip].
  destruct s as [|y s].
  - cbn [PyStr.endswith PyStr.rstrip] in *. now rewrite H.
  - cbn [PyStr.endswith] in H. now rewrite (IH H).
Qed.

(** The directory of [dir/base] is [dir]. *)
Lemma dirname_split dir base :
  dir <> "" ->
  PyStr.endswith OsPath.sep dir = false ->
  PyStr.contains OsPath.sep base = false ->
  OsPath.dirname (dir +:+ String OsPath.sep base) = dir.
Proof.
  intros Hdir Hend Hbase. unfold OsPath.dirname, PyStr.rfind.
  rewrite (rfind_from_last _ _ _ _ _ Hbase).
  replace (Z.to_nat (0 + Z.of_nat (String.length dir) + 1))
    with (String.length dir + 1)%nat by lia.
  rewrite take_append_more.
  change (PyStr.take 1 (String OsPath.sep base)) with (String OsPath.sep "").
  assert (Hall : PyStr.all_char OsPath.sep dir = false).
  { destruct (PyStr.all_char OsPath.sep dir) eqn:E; [|reflexivity].
    rewrite (all_char_endswith _ _ E Hdir) in Hend. discriminate. }
  rewrite all_char_append, Hall. cbn [andb negb].
  rewrite bool_decide_eq_false_2.
  - cbn [negb andb]. now rewrite rstrip_snoc, rstrip_id.
  - destruct dir; [contradiction|discriminate].
Qed.

(** The directory of [/base] is the root. *)
Lemma dirname_root_entry base :
  PyStr.contains OsPath.sep base = false ->
  OsPath.dirname (String OsPath.sep base) = "/".
Proof.
  intros Hbase. unfold OsPath.dirname, PyStr.rfind.
  change (String OsPath.sep base) with ("" +:+ String OsPath.sep base).
  rewrite (rfind_from_last _ _ _ _ _ Hbase). reflexivity.
Qed.

(** ** Sequencing *)

Lemma bind_ok {A B} (m : M A) (k : A -> M B) s a s' :
  m s = (Ok a, s') -> bind m k s = k a s'.
Proof. intros H. unfold bind. now rewrite H. Qed.

Lemma bind_raised {A B} (m : M A) (k : A -> M B) s e s' :
  m s = (Raised e, s') -> bind m k s = (Raised e, s').
Proof. intros H. unfold bind. now rewrite H. Qed.

Lemma bind_exited {A B} (m : M A) (k : A -> M B) s n s' :
  m s = (Exited n, s') -> bind m k s = (Exited n, s').
Proof. intros H. unfold bind. now rewrite H. Qed.

Lemma load_env_unfold X env_file keys s :
  load_env X env_file keys s = load_env_loop keys ∅ (loaded X env_file s).
Proof. reflexivity. Qed.

Lemma loaded_trace X env_file s :
  trace (loaded X env_file s) =
  (trace s ++ [EvLoadDotenv (dotenv_path_of X env_file)])%list.
Proof. reflexivity. Qed.

Lemma loaded_disk X env_file s : disk (loaded X env_file s) = disk s.
Proof. reflexivity. Qed.

Lemma loaded_environ X env_file s :
  environ (loaded X env_file s) =
  match dotenv_values X (dotenv_path_of X env_file) with
  | Some d => environ s ∪ omap id d
  | None => environ s
  end.
Proof. reflexivity. Qed.

(** [main] up to the end of [load_env], when both arguments are given. *)
Lemma main_after_load_env X s env_file keywords_filepath :
  argv X !! 1%nat = Some env_file ->
  argv X !! 2%nat = Some keywords_filepath ->
  main X s =
  bind (load_env X env_file required_keys)
       (fun env =>
          api_key <- dict_get env "api_key" ;;
          api_url <- dict_get env "api_url" ;;
          speech_to_text <- instantiate_stt api_key api_url ;;
          keywords <- extract_keywords X keywords_filepath 0 ;;
          files <- os_listdir X audios_folder ;;
          for_each files (main_loop_body X env speech_to_text keywords))%py s.
Proof.
  intros H1 H2. unfold main, sys_argv. rewrite H1, H2. reflexivity.
Qed.

(** ** The batch loop *)

Section Loop.

Variable X : externals.
Variable env : gmap string string.
Variable speech_to_text : SpeechToTextV1.
Variable keywords : list cell.

Local Abbreviation body := (main_loop_body X env speech_to_text keywords).

Lemma body_skip audio_file s :
  isfile X (OsPath.join audios_folder audio_file) = false ->
  body audio_file s = (Ok tt, s).
Proof. intros H. unfold main_loop_body. now rewrite H. Qed.

(** One regular entry, by cases on what the collaborators answer. *)
Lemma body_regular audio_file s :
  isfile X (OsPath.join audios_folder audio_file) = true ->
  body audio_file s =
  match env !! "custom_id" with
  | None => (Raised (KeyError "custom_id"), s)
  | Some custom_id =>
      match open_rb X (OsPath.join audios_folder audio_file) with
      | inl e => (Raised e, s)
      | inr data =>
          let args := request_of keywords custom_id audio_file data in
          match recognize X s speech_to_text args with
          | inl e => (Raised e, log s (EvRecognize speech_to_text args))
          | inr data_json =>
              match open_w X (log s (EvRecognize speech_to_text args))
                           (json_path json_folder audio_file) with
              | Some e => (Raised e, log s (EvRecognize speech_to_text args))
              | None => (Ok tt, saved s speech_to_text args audio_file data_json)
              end
          end
      end
  end.
Proof.
  intros H. unfold main_loop_body. rewrite H.
  unfold dict_get, sst_response, save_json, call_recognize, write_json,
    print, emit, lift, bind, ret, raise, request_of.
  destruct (env !! "custom_id") as [custom_id|]; [|reflexivity].
  destruct (open_rb X (OsPath.join audios_folder audio_file)) as [e|data];
    [reflexivity|].
  cbv zeta.
  destruct (recognize X s speech_to_text _) as [e|data_json]; [reflexivity|].
  destruct (open_w X _ _) as [e|]; [reflexivity|].
  unfold saved, log. cbn [environ disk trace].
  now rewrite <- !app_assoc.
Qed.

(** An entry that is processed without error is either skipped or
    transcribed and saved. *)
Lemma body_ok_inv audio_file s s' :
  body audio_file s = (Ok tt, s') ->
  (isfile X (OsPath.join audios_folder audio_file) = false /\ s' = s) \/
  (isfile X (OsPath.join audios_folder audio_file) = true /\
   exists custom_id data data_json,
     env !! "custom_id" = Some custom_id /\
     s' = saved s speech_to_text
            (request_of keywords custom_id audio_file data)
            audio_file data_json).
Proof.
  intros Hrun.
  destruct (isfile X (OsPath.join audios_folder audio_file)) eqn:Hfile.
  - right. split; [reflexivity|]. rewrite (body_regular _ _ Hfile) in Hrun.
    destruct (env !! "custom_id") as [custom_id|]; [|discriminate].
    destruct (open_rb X _) as [e|data]; [discriminate|]. cbv zeta in Hrun.
    destruct (recognize X s speech_to_text _) as [e|data_json]; [discriminate|].
    destruct (open_w X _ _) as [e|]; [discriminate|].
    exists custom_id, data, data_json. split; [reflexivity|]. congruence.
  - left. split; [reflexivity|]. rewrite (body_skip _ _ Hfile) in Hrun. congruence.
Qed.

(** Whatever happens to one entry, the environment is kept and the
    trace grows by loop events only. *)
Lemma body_trace audio_file s :
  exists evs,
    trace (snd (body audio_file s)) = (trace s ++ evs)%list /\
    environ (snd (body audio_file s)) = environ s /\
    Forall (loop_event env speech_to_text keywords) evs.
Proof.
  destruct (isfile X (OsPath.join audios_folder audio_file)) eqn:Hfile.
  2:{ rewrite (body_skip _ _ Hfile). exists []. cbn [snd].
      rewrite app_nil_r. repeat split; constructor. }
  rewrite (body_regular _ _ Hfile).
  destruct (env !! "custom_id") as [custom_id|] eqn:Hcid.
  2:{ exists []. cbn [snd]. rewrite app_nil_r. repeat split; constructor. }
  destruct (open_rb X _) as [e|data].
  { exists []. cbn [snd]. rewrite app_nil_r. repeat split; constructor. }
  cbv zeta.
  assert (Hreq : loop_event env speech_to_text keywords
                   (EvRecognize speech_to_text
                      (request_of keywords custom_id audio_file data))).
  { split; [reflexivity|]. now exists custom_id, audio_file, data. }
  destruct (recognize X s speech_to_text _) as [e|data_json].
  { eexists. cbn [snd log trace environ]. repeat split. now constructor. }
  destruct (open_w X _ _) as [e|].
  { eexists. cbn [snd log trace environ]. repeat split. now constructor. }
  eexists. cbn [snd saved trace environ]. repeat split.
  constructor; [exact Hreq|]. constructor; [now exists audio_file|].
  constructor; [exact I|constructor].
Qed.

Lemma loop_trace files s :
  exists evs,
    trace (snd (for_each files body s)) = (trace s ++ evs)%list /\
    environ (snd (for_each files body s)) = environ s /\
    Forall (loop_event env speech_to_text keywords) evs.
Proof.
  revert s; induction files as [|f files IH]; intros s.
  - exists []. cbn. rewrite app_nil_r. repeat split; constructor.
  - cbn [for_each]. unfold bind.
    destruct (body_trace f s) as (evs1 & Ht1 & He1 & Hev1).
    destruct (body f s) as [[[]|e|n] s1]; cbn [snd] in *.
    + destruct (IH s1) as (evs2 & Ht2 & He2 & Hev2).
      exists (evs1 ++ evs2)%list. rewrite Ht2, Ht1, He2, He1.
      split; [now rewrite app_assoc|]. split; [reflexivity|].
      now apply Forall_app.
    + now exists evs1.
    + now exists evs1.
Qed.

(** A prefix of the listing that is processed without error leaves one
    request and one output per regular entry, in listing order, and the
    output of each regular entry on disk. *)
Lemma loop_ok_inv files s s' :
  for_each files body s = (Ok tt, s') ->
  requested (trace s') =
    (requested (trace s) ++
     map (OsPath.join audios_folder) (regular_files X files))%list /\
  written (trace s') =
    (written (trace s) ++
     map (json_path json_folder) (regular_files X files))%list /\
  dom (disk s') =
    dom (disk s) ∪ list_to_set (map (json_path json_folder) (regular_files X files)) /\
  environ s' = environ s.
Proof.
  revert s; induction files as [|f files IH]; intros s Hrun.
  - cbn in Hrun. injection Hrun as <-. cbn [regular_files List.filter map].
    rewrite !app_nil_r. repeat split. set_solver.
  - cbn [for_each] in Hrun. unfold bind in Hrun.
    destruct (body f s) as [[[]|e|n] s1] eqn:Hbody; try discriminate.
    destruct (IH s1 Hrun) as (Hreq & Hwr & Hdom & Henv).
    rewrite Hreq, Hwr, Hdom, Henv. unfold regular_files. cbn [List.filter].
    apply body_ok_inv in Hbody as [[Hfile ->]|(Hfile & cid & data & j & _ & ->)];
      rewrite Hfile.
    + repeat split.
    + cbn [saved trace disk environ map].
      rewrite requested_app, written_app. cbn [requested written request_of
        recognize_kwargs audio name].
      rewrite <- !app_assoc. cbn [app]. repeat split.
      rewrite dom_insert_L. cbn [list_to_set]. set_solver.
Qed.

End Loop.

Lemma for_each_app {A} (l1 l2 : list A) (body : A -> M unit) s :
  for_each (l1 ++ l2) body s =
  bind (for_each l1 body) (fun _ => for_each l2 body) s.
Proof.
  revert s; induction l1 as [|x l1 IH]; intros s; [reflexivity|].
  cbn [for_each app]. unfold bind.
  destruct (body x s) as [[[]|e|n] s1]; [|reflexivity|reflexivity].
  rewrite IH. reflexivity.
Qed.

(** ** The shape of a whole run *)

Lemma main_trace X s :
  exists evs,
    trace (snd (main X s)) = (trace s ++ evs)%list /\ main_events X s evs.
Proof.
  assert (H1 : {a | argv X !! 1%nat = Some a} + {argv X !! 1%nat = None})
    by (destruct (argv X !! 1%nat); eauto).
  destruct H1 as [[env_file H1]|H1].
  2:{ exists []. unfold main, sys_argv. rewrite H1. cbn. rewrite app_nil_r.
      split; [reflexivity|]. left. split; [reflexivity|now left]. }
  assert (H2 : {a | argv X !! 2%nat = Some a} + {argv X !! 2%nat = None})
    by (destruct (argv X !! 2%nat); eauto).
  destruct H2 as [[keywords_filepath H2]|H2].
  2:{ exists []. unfold main, sys_argv. rewrite H1, H2. cbn. rewrite app_nil_r.
      split; [reflexivity|]. left. split; [reflexivity|now right]. }
  rewrite (main_after_load_env X s env_file keywords_filepath H1 H2).
  set (s1 := loaded X env_file s).
  assert (Hs1 : trace s1 = (trace s ++ [EvLoadDotenv (dotenv_path_of X env_file)])%list)
    by apply loaded_trace.
  destruct (load_env_loop_cases required_keys ∅ s1)
    as [(Hp & Hnd & Hf & _)|(k & _ & Hfail)].
  2:{ assert (Hexit : exists line,
                 load_env X env_file required_keys s =
                 (Exited 1, log s1 (EvPrint line))).
      { rewrite load_env_unfold. fold s1.
        destruct Hfail as [[_ ->]|[_ ->]]; eexists; reflexivity. }
      destruct Hexit as (line & Hexit). rewrite (bind_exited _ _ _ _ _ Hexit).
      exists [EvLoadDotenv (dotenv_path_of X env_file); EvPrint line].
      cbn [snd log trace]. rewrite Hs1, <- app_assoc. split; [reflexivity|].
      right. exists env_file, keywords_filepath, [EvPrint line].
      repeat split; try assumption. left. now exists line. }
  destruct (load_env_loop_ok required_keys ∅ s1 Hp Hnd Hf)
    as (env & Hrun & Hdom & Hval & _).
  assert (Hload : load_env X env_file required_keys s = (Ok env, s1)) by exact Hrun.
  rewrite (bind_ok _ _ _ _ _ Hload).
  assert (Hget : forall k, k ∈ required_keys ->
                   exists val, env !! k = Some val /\ env !! k = environ s1 !! k).
  { intros k Hk. rewrite Forall_forall in Hp.
    destruct (Hp k Hk) as (val & Hv & _). exists val.
    split; rewrite (Hval k Hk); [exact Hv|reflexivity]. }
  destruct (Hget "api_key") as (api_key & Hkey & _); [set_solver|].
  destruct (Hget "api_url") as (api_url & Hurl & _); [set_solver|].
  destruct (Hget "custom_id") as (custom_id & _ & Hcid); [set_solver|].
  set (speech_to_text := {| authenticator := api_key; service_url := api_url |}).
  set (s3 := log (log s1 (EvClient speech_to_text)) (EvReadExcel keywords_filepath 0)).
  assert (Hs3 : trace s3 =
                (trace s ++ [EvLoadDotenv (dotenv_path_of X env_file);
                             EvClient speech_to_text;
                             EvReadExcel keywords_filepath 0])%list).
  { unfold s3. cbn [log trace]. rewrite Hs1, <- !app_assoc. reflexivity. }
  (* the run from the reading of the spreadsheet on *)
  assert (Hshape : forall (r : outcome unit * state) rest',
             trace (snd r) = (trace s3 ++ rest')%list ->
             (rest' = [] \/
              exists df keywords loop_evs,
                read_excel X keywords_filepath 0 = inr df /\
                iloc_column df 0 = inr keywords /\
                rest' = EvListdir audios_folder :: loop_evs /\
                Forall (loop_event env speech_to_text keywords) loop_evs) ->
             exists evs,
               trace (snd r) = (trace s ++ evs)%list /\ main_events X s evs).
  { intros r rest' Ht Hrest. eexists. split.
    { rewrite Ht, Hs3, <- !app_assoc. reflexivity. }
    right. exists env_file, keywords_filepath. eexists.
    split; [exact H1|]. split; [exact H2|]. split; [reflexivity|]. right.
    exists env, api_key, api_url, rest'. split; [exact Hload|].
    split; [exact Hkey|]. split; [exact Hurl|]. split; [exact Hcid|].
    split; [reflexivity|exact Hrest]. }
  unfold dict_get. rewrite Hkey. unfold bind at 1, ret at 1.
  rewrite Hurl. unfold bind at 1, ret at 1.
  unfold instantiate_stt, bind at 1 2, emit at 1, ret at 1.
  fold speech_to_text.
  unfold extract_keywords, bind at 1 2 3, emit at 1. fold s3.
  destruct (read_excel X keywords_filepath 0) as [e|df] eqn:Hread;
    cbv beta iota delta [ret bind lift raise].
  { apply (Hshape _ []); [|now left]. cbn [snd]. now rewrite app_nil_r. }
  destruct (iloc_column df 0) as [e|keywords] eqn:Hcol.
  { apply (Hshape _ []); [|now left]. cbn [snd]. now rewrite app_nil_r. }
  unfold os_listdir, emit. cbv beta iota delta [ret bind lift raise].
  destruct (listdir X audios_folder) as [e|files].
  - apply (Hshape _ [EvListdir audios_folder]); [reflexivity|].
    right. exists df, keywords, []. split; [reflexivity|].
    split; [exact Hcol|]. split; [reflexivity|constructor].
  - destruct (loop_trace X env speech_to_text keywords files
                (log s3 (EvListdir audios_folder))) as (loop_evs & Ht & _ & Hev).
    apply (Hshape _ (EvListdir audios_folder :: loop_evs)).
    + etransitivity; [exact Ht|]. cbn [log trace]. now rewrite <- app_assoc.
    + right. now exists df, keywords, loop_evs.
Qed.

(** When every collaborator answers, the loop runs to its end. *)
Lemma loop_all_ok X env speech_to_text keywords custom_id files s :
  env !! "custom_id" = Some custom_id ->
  (forall f, f ∈ files -> isfile X (OsPath.join audios_folder f) = true ->
     exists data, open_rb X (OsPath.join audios_folder f) = inr data) ->
  (forall s0 c args, exists data_json, recognize X s0 c args = inr data_json) ->
  (forall s0 p, open_w X s0 p = None) ->
  exists s', for_each files (main_loop_body X env speech_to_text keywords) s =
             (Ok tt, s').
Proof.
  intros Hcid Hopen Hsvc Hwrite.
  revert s; induction files as [|f files IH]; intros s.
  - now exists s.
  - cbn [for_each].
    assert (Hbody : exists s1,
               main_loop_body X env speech_to_text keywords f s = (Ok tt, s1)).
    { destruct (isfile X (OsPath.join audios_folder f)) eqn:Hfile.
      - rewrite (body_regular _ _ _ _ _ _ Hfile), Hcid.
        destruct (Hopen f ltac:(left) Hfile) as (data & ->). cbv zeta.
        destruct (Hsvc s speech_to_text (request_of keywords custom_id f data))
          as (data_json & ->).
        rewrite Hwrite. now eexists.
      - rewrite (body_skip _ _ _ _ _ _ Hfile). now exists s. }
    destruct Hbody as (s1 & Hbody). rewrite (bind_ok _ _ _ _ _ Hbody).
    apply IH. intros g Hg. apply Hopen. now right.
Qed.

(** ** Claims about the configuration loader *)

(** C2, as stated, fails: with the key list [api_key, api_key, api_url]
    and an environment that lacks [api_url], the loader halts on the
    repetition of [api_key]; its diagnostic does not name the absent key. *)
Lemma load_env_missing_key_not_named :
  let X := sample_externals (delete "api_url" full_dotenv) [] [] [] in
  let keys := ["api_key"; "api_key"; "api_url"] in
  "api_url" ∈ keys /\
  environ (loaded X "ibm.env" initial_state) !! "api_url" = None /\
  load_env X "ibm.env" keys initial_state =
  (Exited 1, log (loaded X "ibm.env" initial_state)
                 (EvPrint "Repeated key: 'api_key'.")) /\
  mentions "api_url" "Repeated key: 'api_key'." = false.
Proof.
  split; [set_solver|]. split; [vm_compute; reflexivity|].
  split; vm_compute; reflexivity.
Qed.

(** C2 (amended): when a required key is absent from the loaded
    environment or maps to the empty string, [load_env] prints one
    diagnostic and exits with status 1; the diagnostic names the first key
    of the list that is absent, empty or repeated, and so is the
    missing-value message for the absent key itself when no earlier key of
    the list is absent, empty or repeated; whatever follows [load_env] is
    not run, and [main] builds no client. *)
Theorem load_env_missing_key X env_file keys s key :
  key ∈ keys ->
  ~ present (loaded X env_file s) key ->
  let s1 := loaded X env_file s in
  (exists (pre : list string) k post line,
      keys = (pre ++ k :: post)%list /\
      Forall (present s1) pre /\ NoDup pre /\
      ((~ present s1 k /\ line = missing_value_msg k) \/
       (present s1 k /\ k ∈ pre /\ line = repeated_key_msg k)) /\
      mentions k line = true /\
      load_env X env_file keys s = (Exited 1, log s1 (EvPrint line)) /\
      (forall B (rest : gmap string string -> M B),
          bind (load_env X env_file keys) rest s =
          (Exited 1, log s1 (EvPrint line)))) /\
  (forall (pre post : list string),
      keys = (pre ++ key :: post)%list ->
      Forall (present s1) pre -> NoDup pre ->
      load_env X env_file keys s =
      (Exited 1, log s1 (EvPrint (missing_value_msg key)))) /\
  (forall keywords_filepath,
      keys = required_keys ->
      argv X !! 1%nat = Some env_file ->
      argv X !! 2%nat = Some keywords_filepath ->
      exists line,
        main X s = (Exited 1, log s1 (EvPrint line)) /\
        clients (trace (snd (main X s))) = clients (trace s)).
Proof.
  intros Hin Hkey s1.
  assert (Hexit : exists (pre : list string) k post line,
             keys = (pre ++ k :: post)%list /\
             Forall (present s1) pre /\ NoDup pre /\
             ((~ present s1 k /\ line = missing_value_msg k) \/
              (present s1 k /\ k ∈ pre /\ line = repeated_key_msg k)) /\
             load_env X env_file keys s = (Exited 1, log s1 (EvPrint line))).
  { rewrite load_env_unfold. fold s1.
    destruct (first_fault_split s1 keys ∅)
      as [(Hp & _)|(pre & k & post & Hkeys & Hp & Hnd & Hf & Hk)].
    { exfalso. apply Hkey. rewrite Forall_forall in Hp. now apply Hp. }
    exists pre, k, post. rewrite Hkeys.
    destruct Hk as [Hk|[Hk [Hpre|Hseen]]]; [| |set_solver].
    - exists (missing_value_msg k). repeat (split; [now auto|]).
      apply load_env_loop_missing; try assumption; set_solver.
    - exists (repeated_key_msg k). repeat (split; [now auto|]).
      apply load_env_loop_repeated; try assumption; try set_solver. }
  split; [|split].
  - destruct Hexit as (pre & k & post & line & Hkeys & Hp & Hnd & Hline & Hrun).
    exists pre, k, post, line. repeat (split; [assumption|]). split.
    { destruct Hline as [[_ ->]|(_ & _ & ->)];
        [apply mentions_missing_value_msg|apply mentions_repeated_key_msg]. }
    split; [exact Hrun|]. intros B rest. now apply bind_exited.
  - intros pre post -> Hp Hnd. rewrite load_env_unfold. fold s1.
    apply load_env_loop_missing; try assumption. set_solver.
  - intros keywords_filepath -> H1 H2.
    destruct Hexit as (_ & _ & _ & line & _ & _ & _ & _ & Hrun). exists line.
    rewrite (main_after_load_env X s env_file keywords_filepath H1 H2).
    rewrite (bind_exited _ _ _ _ _ Hrun). split; [reflexivity|].
    cbn [snd log trace]. unfold s1. rewrite loaded_trace, !clients_app.
    cbn [clients]. now rewrite !app_nil_r.
Qed.

Lemma load_env_missing_key_witness :
  let X := sample_externals (delete "base_lang" full_dotenv) [] [] [] in
  load_env X "ibm.env" required_keys initial_state =
  (Exited 1, log (loaded X "ibm.env" initial_state)
                 (EvPrint (missing_value_msg "base_lang"))).
Proof.
  intros X.
  apply (load_env_missing_key X "ibm.env" required_keys initial_state "base_lang")
    with (pre := ["api_key"; "api_url"]) (post := ["custom_id"]).
  - set_solver.
  - intros (val & Hval & _). vm_compute in Hval. discriminate.
  - reflexivity.
  - all_present.
  - no_dup.
Defined.

(** C3, as stated, fails for a key list with a repetition: every key of
    [api_key, api_key] is present and non-empty, yet the loader halts
    instead of returning a mapping. *)
Lemma load_env_present_keys_no_mapping :
  let X := sample_externals full_dotenv [] [] [] in
  let keys := ["api_key"; "api_key"] in
  Forall (present (loaded X "ibm.env" initial_state)) keys /\
  load_env X "ibm.env" keys initial_state =
  (Exited 1, log (loaded X "ibm.env" initial_state)
                 (EvPrint "Repeated key: 'api_key'.")).
Proof.
  split; [all_present|vm_compute; reflexivity].
Qed.

(** C3 (amended): for every required-key list without repetition in
    which every key is present in the loaded environment with a non-empty
    value, [load_env] returns a mapping whose key set is exactly the
    required keys and whose value for each key is the environment's string
    for it, unchanged. *)
Theorem load_env_returns_required_keys X env_file keys s :
  NoDup keys ->
  Forall (present (loaded X env_file s)) keys ->
  exists env,
    load_env X env_file keys s = (Ok env, loaded X env_file s) /\
    dom env = list_to_set keys /\
    (forall k, k ∈ keys ->
       env !! k = environ (loaded X env_file s) !! k /\
       exists val, env !! k = Some val /\ val <> "").
Proof.
  intros Hnd Hp.
  destruct (load_env_loop_ok keys ∅ (loaded X env_file s) Hp Hnd)
    as (env & Hrun & Hdom & Hval & _); [set_solver|].
  exists env. split; [exact Hrun|]. split; [rewrite Hdom; set_solver|].
  intros k Hk. split; [now apply Hval|].
  rewrite Forall_forall in Hp. destruct (Hp k Hk) as (val & Hv & Hne).
  exists val. split; [|exact Hne]. now rewrite (Hval k Hk).
Qed.

Lemma load_env_returns_required_keys_witness :
  let X := sample_externals full_dotenv [] [] [] in
  exists env,
    load_env X "ibm.env" required_keys initial_state =
    (Ok env, loaded X "ibm.env" initial_state) /\
    dom env = list_to_set required_keys /\
    (forall k, k ∈ required_keys ->
       env !! k = environ (loaded X "ibm.env" initial_state) !! k /\
       exists val, env !! k = Some val /\ val <> "").
Proof.
  intros X.
  apply (load_env_returns_required_keys X "ibm.env" required_keys initial_state).
  - no_dup.
  - all_present.
Defined.

(** C8, as stated, fails: the list [api_key, api_key] repeats a key, but
    in an environment without [api_key] the loader halts with the
    missing-value diagnostic, not with the duplicate-key one. *)
Lemma load_env_repeated_key_reported_missing :
  let X := sample_externals ∅ [] [] [] in
  let keys := ["api_key"; "api_key"] in
  ~ NoDup keys /\
  load_env X "ibm.env" keys initial_state =
  (Exited 1, log (loaded X "ibm.env" initial_state)
                 (EvPrint "The value of 'api_key' is empty.")) /\
  "The value of 'api_key' is empty." <> repeated_key_msg "api_key".
Proof.
  split; [|split; [vm_compute; reflexivity|discriminate]].
  intros H. apply NoDup_cons in H as [H _]. set_solver.
Qed.

(** C8 (amended): for every required-key list that contains the same key
    name twice, [load_env] halts the process with exit status 1 at the
    first key that is absent, empty or repeated; the diagnostic is the
    duplicate-key message for the repeated key whenever every key listed
    before the repeated occurrence is present and non-empty. *)
Theorem load_env_repeated_key X env_file keys s :
  ~ NoDup keys ->
  let s1 := loaded X env_file s in
  (exists (pre : list string) key post,
      keys = (pre ++ key :: post)%list /\
      Forall (present s1) pre /\ NoDup pre /\
      ((~ present s1 key /\
        load_env X env_file keys s =
        (Exited 1, log s1 (EvPrint (missing_value_msg key)))) \/
       (present s1 key /\ key ∈ pre /\
        load_env X env_file keys s =
        (Exited 1, log s1 (EvPrint (repeated_key_msg key)))))) /\
  (forall (pre : list string) key post,
      keys = (pre ++ key :: post)%list ->
      NoDup pre -> key ∈ pre -> Forall (present s1) pre ->
      load_env X env_file keys s =
      (Exited 1, log s1 (EvPrint (repeated_key_msg key)))).
Proof.
  intros Hdup s1. split.
  - destruct (first_fault_split s1 keys ∅)
      as [(_ & Hnd & _)|(pre & key & post & -> & Hp & Hnd & Hf & Hkey)];
      [contradiction|].
    exists pre, key, post. split; [reflexivity|]. split; [exact Hp|].
    split; [exact Hnd|]. rewrite load_env_unfold. fold s1.
    destruct Hkey as [Hkey|[Hkey Hin]].
    + left. split; [exact Hkey|].
      apply load_env_loop_missing; try assumption; set_solver.
    + right. split; [exact Hkey|]. destruct Hin as [Hin|Hin]; [|set_solver].
      split; [exact Hin|].
      apply load_env_loop_repeated; try assumption; try set_solver.
  - intros pre key post -> Hnd Hin Hp. rewrite load_env_unfold. fold s1.
    apply load_env_loop_repeated; try assumption; [set_solver| |now left].
    rewrite Forall_forall in Hp. now apply Hp.
Qed.

Lemma load_env_repeated_key_witness :
  let X := sample_externals full_dotenv [] [] [] in
  load_env X "ibm.env" ["api_key"; "api_url"; "api_key"; "custom_id"] initial_state =
  (Exited 1, log (loaded X "ibm.env" initial_state)
                 (EvPrint (repeated_key_msg "api_key"))).
Proof.
  intros X.
  apply (load_env_repeated_key X "ibm.env"
           ["api_key"; "api_url"; "api_key"; "custom_id"] initial_state)
    with (pre := ["api_key"; "api_url"]) (post := ["custom_id"]).
  - intros H. apply NoDup_cons in H as [H _]. set_solver.
  - reflexivity.
  - no_dup.
  - set_solver.
  - all_present.
Defined.

(** C9, as stated, fails: loading the configuration stores the pairs of
    the environment file in the process environment, which it therefore
    does not leave unchanged. *)
Lemma load_env_changes_environ :
  let X := sample_externals full_dotenv [] [] [] in
  let s' := snd (load_env X "ibm.env" required_keys initial_state) in
  environ initial_state !! "api_key" = None /\
  environ s' !! "api_key" = Some "k-123" /\
  environ s' <> environ initial_state.
Proof.
  split; [reflexivity|]. split; [vm_compute; reflexivity|].
  intros H. apply (f_equal (fun m => m !! "api_key")) in H.
  vm_compute in H. discriminate.
Qed.

(** C9 (amended): loading the configuration reads the environment file
    and the process environment, and sets in the process environment each
    variable of the file that has a value and was not set before;
    variables already set keep their values, a missing file changes
    nothing, the output files are untouched, and apart from the record of
    the load the only other effect is the one diagnostic printed when the
    loader halts. *)
Theorem load_env_effects X env_file keys s :
  let r := load_env X env_file keys s in
  let path := dotenv_path_of X env_file in
  disk (snd r) = disk s /\
  environ (snd r) =
    match dotenv_values X path with
    | Some d => environ s ∪ omap id d
    | None => environ s
    end /\
  (forall k val, environ s !! k = Some val -> environ (snd r) !! k = Some val) /\
  (forall k, environ s !! k = None ->
     environ (snd r) !! k =
       match dotenv_values X path with
       | Some d => d !! k ≫= id
       | None => None
       end) /\
  ((exists env, fst r = Ok env /\
                trace (snd r) = (trace s ++ [EvLoadDotenv path])%list) \/
   (exists line, fst r = Exited 1 /\
                 trace (snd r) = (trace s ++ [EvLoadDotenv path; EvPrint line])%list)).
Proof.
  intros r path. subst r. rewrite load_env_unfold.
  set (s1 := loaded X env_file s).
  assert (Hstate : disk (snd (load_env_loop keys ∅ s1)) = disk s /\
                   environ (snd (load_env_loop keys ∅ s1)) = environ s1 /\
                   ((exists env, fst (load_env_loop keys ∅ s1) = Ok env /\
                       trace (snd (load_env_loop keys ∅ s1)) = trace s1) \/
                    (exists line, fst (load_env_loop keys ∅ s1) = Exited 1 /\
                       trace (snd (load_env_loop keys ∅ s1)) =
                       (trace s1 ++ [EvPrint line])%list))).
  { destruct (load_env_loop_cases keys ∅ s1)
      as [(_ & _ & _ & env & ->)|(k & _ & [[_ ->]|[_ ->]])]; cbn [fst snd log disk environ trace].
    - split; [reflexivity|]. split; [reflexivity|]. left. now exists env.
    - split; [reflexivity|]. split; [reflexivity|]. right. now eexists.
    - split; [reflexivity|]. split; [reflexivity|]. right. now eexists. }
  destruct Hstate as (Hdisk & Henv & Htrace). subst s1.
  split; [exact Hdisk|]. rewrite Henv, loaded_environ. fold path.
  split; [reflexivity|]. split; [|split].
  - intros k val Hk. destruct (dotenv_values X path) as [d|]; [|exact Hk].
    apply lookup_union_Some_l. exact Hk.
  - intros k Hk. destruct (dotenv_values X path) as [d|]; [|exact Hk].
    rewrite lookup_union_r by exact Hk. now rewrite lookup_omap.
  - destruct Htrace as [(env & Hf & Ht)|(line & Hf & Ht)].
    + left. exists env. split; [exact Hf|]. rewrite Ht. apply loaded_trace.
    + right. exists line. split; [exact Hf|]. rewrite Ht, loaded_trace.
      fold path. now rewrite <- app_assoc.
Qed.

(** ** Claims about keyword extraction and the output path *)

(** The keywords are the first column of the frame the parser returns:
    as many as the frame has data rows, in row order. *)
Lemma extract_keywords_of_frame X excel_pathfile header df s :
  read_excel X excel_pathfile header = inr df ->
  columns df <> [] ->
  rectangular df ->
  exists keyword,
    extract_keywords X excel_pathfile header s =
    (Ok keyword, log s (EvReadExcel excel_pathfile header)) /\
    length keyword = length (rows df) /\
    (forall (i : nat) r, rows df !! i = Some r ->
       exists c, r !! 0%nat = Some c /\ keyword !! i = Some c).
Proof.
  intros Hread Hcols Hrect.
  exists (map (fun r => nth 0 r CNaN) (rows df)). split; [|split].
  - unfold extract_keywords, bind, emit, lift, ret, iloc_column.
    rewrite Hread. rewrite bool_decide_eq_true_2; [reflexivity|].
    destruct (columns df); [contradiction|cbn; lia].
  - apply length_map.
  - intros i r Hr.
    assert (Hlen : length r = length (columns df)).
    { unfold rectangular in Hrect. rewrite Forall_forall in Hrect.
      apply Hrect. now apply list_elem_of_lookup_2 in Hr. }
    destruct r as [|c r].
    { destruct (columns df); [contradiction|discriminate]. }
    exists c. split; [reflexivity|].
    rewrite list_lookup_fmap, Hr. reflexivity.
Qed.

(** C4, as stated, fails: the header argument is passed to pandas, which
    takes it as the 0-based index of the header row, not as a count.  For a
    worksheet with one header row and three data rows, [extract_keywords]
    called with 1 skips the header row, uses the first data row as the
    header and returns two values, not three. *)
Lemma extract_keywords_header_count_off_by_one :
  let X := with_sheet (sample_externals full_dotenv [] [] []) sample_sheet in
  let header_rows := [[CStr "keyword"; CStr "weight"]] in
  let data_rows := [[CStr "hola"; CInt 1]; [CStr "adios"; CInt 2]; [CStr "hola"; CInt 3]] in
  sample_sheet = (header_rows ++ data_rows)%list /\
  length header_rows = 1%nat /\ length data_rows = 3%nat /\
  fst (extract_keywords X "keywords.xlsx" 1 initial_state) =
  Ok [CStr "adios"; CStr "hola"] /\
  length [CStr "adios"; CStr "hola"] <> length data_rows.
Proof.
  repeat split. cbn. lia.
Qed.

(** C4 (amended): [extract_keywords] hands its header argument [h] to the
    parser, for which it is the 0-based index of the header row.  For every
    worksheet with more than [h] rows whose rows have as many cells as row
    [h], which has at least one, it returns the first-column values of the
    rows after row [h], in source row order and with duplicates kept: a
    sequence of length [n] when [h] rows are skipped, one row is the
    header and [n] data rows follow. *)
Theorem extract_keywords_rows_after_header
    X excel_pathfile (header : nat) (sheet : list (list cell)) s :
  (header < length sheet)%nat ->
  nth header sheet [] <> [] ->
  Forall (fun r => length r = length (nth header sheet [])) sheet ->
  read_excel X excel_pathfile (Z.of_nat header) = inr (frame_of_sheet sheet header) ->
  exists keyword,
    extract_keywords X excel_pathfile (Z.of_nat header) s =
    (Ok keyword, log s (EvReadExcel excel_pathfile (Z.of_nat header))) /\
    (length keyword = length sheet - (header + 1))%nat /\
    (forall (i : nat) r, sheet !! (header + 1 + i)%nat = Some r ->
       exists c, r !! 0%nat = Some c /\ keyword !! i = Some c) /\
    (forall (skipped : list (list cell)) labels data,
       sheet = (skipped ++ labels :: data)%list -> length skipped = header ->
       length keyword = length data /\
       forall (i : nat) r, data !! i = Some r ->
         exists c, r !! 0%nat = Some c /\ keyword !! i = Some c).
Proof.
  intros Hlt Hlabels Hrect Hread.
  destruct (extract_keywords_of_frame X excel_pathfile (Z.of_nat header)
              (frame_of_sheet sheet header) s Hread Hlabels)
    as (keyword & Hrun & Hlen & Hnth).
  { unfold rectangular, frame_of_sheet. cbn [rows columns].
    rewrite Forall_forall in *. intros r Hr. apply Hrect.
    apply list_elem_of_lookup in Hr as (i & Hr). rewrite lookup_drop in Hr.
    now apply list_elem_of_lookup_2 in Hr. }
  cbn [frame_of_sheet rows] in Hlen, Hnth.
  exists keyword. split; [exact Hrun|]. split; [|split].
  - rewrite Hlen, length_drop. lia.
  - intros i r Hr. apply Hnth. rewrite lookup_drop.
    now replace (S header + i)%nat with (header + 1 + i)%nat by lia.
  - intros skipped labels data -> Hskip. split.
    + rewrite Hlen, length_drop, length_app. cbn [length]. lia.
    + intros i r Hr. apply Hnth. rewrite lookup_drop.
      rewrite lookup_app_r by lia.
      replace (S header + i - length skipped)%nat with (S i) by lia.
      exact Hr.
Qed.

Lemma extract_keywords_rows_after_header_witness :
  let X := with_sheet (sample_externals full_dotenv [] [] []) sample_sheet in
  exists keyword,
    extract_keywords X "keywords.xlsx" 0 initial_state =
    (Ok keyword, log initial_state (EvReadExcel "keywords.xlsx" 0)) /\
    keyword = [CStr "hola"; CStr "adios"; CStr "hola"].
Proof.
  intros X.
  destruct (extract_keywords_rows_after_header X "keywords.xlsx" 0 sample_sheet
              initial_state) as (keyword & Hrun & _).
  - cbn. lia.
  - discriminate.
  - repeat constructor.
  - reflexivity.
  - exists keyword. split; [exact Hrun|].
    cbv in Hrun. now injection Hrun as <-.
Defined.

(** C5: [save_json] writes the document to the output folder joined with
    the input name whose extension, if any, is replaced by [.json].  The
    name splits into a root and an extension that is empty or one dot
    followed by characters other than dots and separators, and the file
    written is [json/<root>.json]; for a directory entry [stem.e] whose
    stem is not made of dots only the root is [stem], and a name without
    a dot is its own root; [clip_01.mp3] gives [json/clip_01.json] and the
    extensionless [clip] gives [json/clip.json]. *)
Theorem save_json_output_path X data_json audio_file s :
  open_w X s (json_path json_folder audio_file) = None ->
  (exists root ext,
      audio_file = root +:+ ext /\
      (ext = "" \/
       exists e, ext = String OsPath.extsep e /\
                 PyStr.contains OsPath.extsep e = false /\
                 PyStr.contains OsPath.sep e = false) /\
      let json_pathfile := "json/" +:+ root +:+ ".json" in
      json_path json_folder audio_file = json_pathfile /\
      fst (save_json X data_json audio_file json_folder s) = Ok tt /\
      disk (snd (save_json X data_json audio_file json_folder s)) =
        <[json_pathfile := data_json]> (disk s) /\
      written (trace (snd (save_json X data_json audio_file json_folder s))) =
        (written (trace s) ++ [json_pathfile])%list) /\
  (forall stem e,
      audio_file = stem +:+ String OsPath.extsep e ->
      PyStr.contains OsPath.sep audio_file = false ->
      PyStr.contains OsPath.extsep e = false ->
      PyStr.all_char OsPath.extsep stem = false ->
      json_path json_folder audio_file = "json/" +:+ stem +:+ ".json") /\
  (PyStr.contains OsPath.extsep audio_file = false ->
   json_path json_folder audio_file = "json/" +:+ audio_file +:+ ".json") /\
  json_path json_folder "clip_01.mp3" = "json/clip_01.json" /\
  json_path json_folder "clip" = "json/clip.json".
Proof.
  intros Hopen. split; [|split; [|split; [|split; reflexivity]]].
  2:{ intros stem e -> Hsep He Hstem. unfold json_path.
      now rewrite (splitext_last_dot stem e Hsep He Hstem). }
  2:{ intros Hdot. unfold json_path. now rewrite (splitext_no_dot _ Hdot). }
  pose proof (splitext_spec audio_file) as Hsplit.
  assert (Hpath : json_path json_folder audio_file =
                  "json/" +:+ fst (OsPath.splitext audio_file) +:+ ".json")
    by reflexivity.
  destruct (OsPath.splitext audio_file) as [root ext]. cbn [fst] in Hpath.
  destruct Hsplit as [Hname Hext].
  exists root, ext. split; [exact Hname|]. split; [exact Hext|].
  cbv zeta. split; [exact Hpath|].
  unfold save_json, bind, write_json, print, emit.
  rewrite Hopen, Hpath. cbn [fst snd log disk trace].
  split; [reflexivity|]. split; [reflexivity|].
  rewrite !written_app. cbn [written]. now rewrite app_nil_r.
Qed.

Lemma save_json_output_path_witness :
  let X := sample_externals full_dotenv ["clip_01.mp3"] [] [] in
  disk (snd (save_json X sample_result "clip_01.mp3" json_folder initial_state))
  !! "json/clip_01.json" = Some sample_result.
Proof.
  intros X.
  destruct (save_json_output_path X sample_result "clip_01.mp3" initial_state
              eq_refl) as [(root & ext & _ & _ & Hrun) _].
  cbv zeta in Hrun. destruct Hrun as (Hpath & _ & Hdisk & _).
  rewrite Hdisk, <- Hpath. apply lookup_insert_eq.
Defined.

(** ** Claims about the batch loop *)

(** C1: when the recognition call for one entry raises, the loop stops
    with that error: the requests made are those of the regular entries
    listed before it and the failing one, the outputs written are those of
    the regular entries listed before it, and these outputs are still on
    disk; no entry listed after it is requested or written. *)
Theorem batch_stops_at_failed_request
    X env speech_to_text keywords (pre : list string) audio_file post
    s s1 custom_id data e :
  env !! "custom_id" = Some custom_id ->
  for_each pre (main_loop_body X env speech_to_text keywords) s = (Ok tt, s1) ->
  isfile X (OsPath.join audios_folder audio_file) = true ->
  open_rb X (OsPath.join audios_folder audio_file) = inr data ->
  recognize X s1 speech_to_text
    (request_of keywords custom_id audio_file data) = inl e ->
  let r := for_each (pre ++ audio_file :: post)%list
             (main_loop_body X env speech_to_text keywords) s in
  fst r = Raised e /\
  requested (trace (snd r)) =
    (requested (trace s) ++
     map (OsPath.join audios_folder) (regular_files X pre) ++
     [OsPath.join audios_folder audio_file])%list /\
  written (trace (snd r)) =
    (written (trace s) ++
     map (json_path json_folder) (regular_files X pre))%list /\
  disk (snd r) = disk s1 /\
  (forall g, g ∈ regular_files X pre ->
     is_Some (disk (snd r) !! json_path json_folder g)).
Proof.
  intros Hcid Hpre Hfile Hopen Hfail r. subst r.
  rewrite for_each_app, (bind_ok _ _ _ _ _ Hpre). cbn [for_each].
  assert (Hbody : main_loop_body X env speech_to_text keywords audio_file s1 =
                  (Raised e, log s1 (EvRecognize speech_to_text
                     (request_of keywords custom_id audio_file data)))).
  { rewrite (body_regular _ _ _ _ _ _ Hfile), Hcid, Hopen. cbv zeta.
    now rewrite Hfail. }
  rewrite (bind_raised _ _ _ _ _ Hbody). cbn [fst snd log trace disk].
  destruct (loop_ok_inv _ _ _ _ _ _ _ Hpre) as (Hreq & Hwr & Hdom & _).
  split; [reflexivity|]. split; [|split; [|split; [reflexivity|]]].
  - rewrite requested_app, Hreq, <- app_assoc. reflexivity.
  - rewrite written_app, Hwr. cbn [written]. now rewrite app_nil_r.
  - intros g Hg. apply elem_of_dom. rewrite Hdom.
    apply elem_of_union_r, elem_of_list_to_set, list_elem_of_fmap.
    now exists g.
Qed.

Lemma batch_stops_at_failed_request_witness :
  let X := sample_externals full_dotenv ["a.mp3"; "b.mp3"; "c.mp3"] []
             ["audios/b.mp3"] in
  let env : gmap string string := {["custom_id" := "c-1"]} in
  let c := {| authenticator := "k-123"; service_url := "https://stt.example" |} in
  let r := for_each ["a.mp3"; "b.mp3"; "c.mp3"]
             (main_loop_body X env c []) initial_state in
  fst r = Raised (ServiceError "503 Service Unavailable") /\
  requested (trace (snd r)) = ["audios/a.mp3"; "audios/b.mp3"] /\
  written (trace (snd r)) = ["json/a.json"] /\
  is_Some (disk (snd r) !! "json/a.json").
Proof.
  intros X env c.
  pose proof (batch_stops_at_failed_request X env c [] ["a.mp3"] "b.mp3" ["c.mp3"]
                initial_state
                (saved initial_state c (request_of [] "c-1" "a.mp3" []) "a.mp3"
                   sample_result)
                "c-1" [] (ServiceError "503 Service Unavailable")
                eq_refl eq_refl eq_refl eq_refl eq_refl) as H.
  cbv zeta in H. destruct H as (Hout & Hreq & Hwr & _ & Hdisk).
  split; [exact Hout|]. split; [exact Hreq|]. split; [exact Hwr|].
  apply (Hdisk "a.mp3"). vm_compute. left.
Defined.

(** C7, as stated, fails: with the regular files [a.mp3] and [a.wav] and
    one sub-directory in [audios], both results are written to
    [json/a.json]; the run ends with one output file, not two. *)
Lemma two_regular_files_one_output :
  let entries := ["a.mp3"; "a.wav"; "sub"] in
  let X := sample_externals full_dotenv entries ["sub"] [] in
  let r := main X initial_state in
  regular_files X entries = ["a.mp3"; "a.wav"] /\
  isfile X (OsPath.join audios_folder "sub") = false /\
  fst r = Ok tt /\
  written (trace (snd r)) = ["json/a.json"; "json/a.json"] /\
  size (disk (snd r)) = 1%nat.
Proof.
  repeat split; vm_compute; reflexivity.
Qed.

(** C7 (amended): when every collaborator answers, the loop makes one
    recognition request and one write per regular file of the listing, in
    listing order, and none for any other entry; the files on disk grow
    by exactly the output paths of the regular files, which are as many
    as the regular files when these paths are pairwise distinct and new
    (two outputs for two regular files and one sub-directory). *)
Theorem batch_processes_regular_files
    X env speech_to_text keywords custom_id (files : list string) s :
  env !! "custom_id" = Some custom_id ->
  (forall f, f ∈ files -> isfile X (OsPath.join audios_folder f) = true ->
     exists data, open_rb X (OsPath.join audios_folder f) = inr data) ->
  (forall s0 c args, exists data_json, recognize X s0 c args = inr data_json) ->
  (forall s0 p, open_w X s0 p = None) ->
  let outputs := map (json_path json_folder) (regular_files X files) in
  exists s',
    for_each files (main_loop_body X env speech_to_text keywords) s = (Ok tt, s') /\
    requested (trace s') =
      (requested (trace s) ++
       map (OsPath.join audios_folder) (regular_files X files))%list /\
    written (trace s') = (written (trace s) ++ outputs)%list /\
    dom (disk s') = dom (disk s) ∪ list_to_set outputs /\
    (NoDup outputs -> (forall p, p ∈ outputs -> p ∉ dom (disk s)) ->
     size (disk s') = (size (disk s) + length (regular_files X files))%nat).
Proof.
  intros Hcid Hopen Hsvc Hwrite outputs.
  destruct (loop_all_ok X env speech_to_text keywords custom_id files s
              Hcid Hopen Hsvc Hwrite) as (s' & Hrun).
  exists s'. split; [exact Hrun|].
  destruct (loop_ok_inv _ _ _ _ _ _ _ Hrun) as (Hreq & Hwr & Hdom & _).
  split; [exact Hreq|]. split; [exact Hwr|]. split; [exact Hdom|].
  intros Hnd Hnew. rewrite <- !size_dom, Hdom. fold outputs.
  rewrite size_union by set_solver.
  rewrite size_list_to_set by exact Hnd.
  unfold outputs. now rewrite length_map.
Qed.

Lemma batch_processes_regular_files_witness :
  let entries := ["a.mp3"; "b.wav"; "sub"] in
  let X := sample_externals full_dotenv entries ["sub"] [] in
  let env : gmap string string := {["custom_id" := "c-1"]} in
  let c := {| authenticator := "k-123"; service_url := "https://stt.example" |} in
  exists s',
    for_each entries (main_loop_body X env c []) initial_state = (Ok tt, s') /\
    requested (trace s') = ["audios/a.mp3"; "audios/b.wav"] /\
    written (trace s') = ["json/a.json"; "json/b.json"] /\
    size (disk s') = 2%nat.
Proof.
  intros entries X env c.
  destruct (batch_processes_regular_files X env c [] "c-1" entries initial_state)
    as (s' & Hrun & Hreq & Hwr & _ & Hsize).
  - reflexivity.
  - intros f _ _. now exists [].
  - intros s0 c0 args. unfold X, sample_externals. cbn [recognize].
    rewrite bool_decide_eq_false_2 by set_solver. now eexists.
  - reflexivity.
  - exists s'. split; [exact Hrun|]. split; [exact Hreq|]. split; [exact Hwr|].
    apply Hsize.
    + vm_compute. no_dup.
    + intros p _. set_solver.
Defined.

(** C6: every recognition request carries the same fixed parameter set.
    [sst_response] sends the opened audio with content type [audio/mp3],
    model [es-CO_NarrowbandModel], the customization identifier and the
    keyword list it was given, both thresholds 0.5, speaker labels on,
    inactivity timeout [-1] (disabled) and at most 3 alternatives; and in
    a whole run every request is made with the one client, the
    customization identifier of the configuration and the keywords
    extracted from the spreadsheet. *)
Theorem requests_carry_fixed_parameters X s :
  (forall audio_pathfile speech_to_text keywords custom_id,
      sst_response X audio_pathfile speech_to_text keywords custom_id s =
      match open_rb X audio_pathfile with
      | inl e => (Raised e, s)
      | inr data =>
          call_recognize X speech_to_text
            {| audio := {| name := audio_pathfile; content := data |};
               content_type := "audio/mp3";
               model := "es-CO_NarrowbandModel";
               customization_id := custom_id;
               keywords := keywords;
               word_alternatives_threshold := 0.5%Q;
               keywords_threshold := 0.5%Q;
               speaker_labels := true;
               inactivity_timeout := -1;
               max_alternatives := 3 |} s
      end) /\
  exists evs,
    trace (snd (main X s)) = (trace s ++ evs)%list /\
    forall c args,
      EvRecognize c args ∈ evs ->
      fixed_parameters args /\
      exists env_file keywords_filepath env api_key api_url custom_id df,
        argv X !! 1%nat = Some env_file /\
        argv X !! 2%nat = Some keywords_filepath /\
        load_env X env_file required_keys s = (Ok env, loaded X env_file s) /\
        env !! "api_key" = Some api_key /\
        env !! "api_url" = Some api_url /\
        c = {| authenticator := api_key; service_url := api_url |} /\
        environ (loaded X env_file s) !! "custom_id" = Some custom_id /\
        customization_id args = Some custom_id /\
        read_excel X keywords_filepath 0 = inr df /\
        iloc_column df 0 = inr (keywords args).
Proof.
  split.
  { intros audio_pathfile speech_to_text keywords custom_id.
    unfold sst_response, bind, lift, raise, ret.
    destruct (open_rb X audio_pathfile) as [e|data]; [reflexivity|].
    unfold recognize_kwargs.
    destruct (call_recognize X speech_to_text _ s) as [[j|e|n] s']; reflexivity. }
  destruct (main_trace X s) as (evs & Ht & Hshape).
  exists evs. split; [exact Ht|]. intros c args Hin.
  destruct Hshape as [[-> _]|(env_file & kf & rest & H1 & H2 & -> & Hrest)];
    [inversion Hin|].
  apply elem_of_cons in Hin as [Hin|Hin]; [discriminate|].
  destruct Hrest as [(line & ->)|(env & api_key & api_url & rest' & Hload & Hkey
                                  & Hurl & Hcid & Hrest)].
  { apply elem_of_cons in Hin as [Hin|Hin]; [discriminate|inversion Hin]. }
  cbv zeta in Hrest. destruct Hrest as (-> & Hrest').
  apply elem_of_cons in Hin as [Hin|Hin]; [discriminate|].
  apply elem_of_cons in Hin as [Hin|Hin]; [discriminate|].
  destruct Hrest' as [->|(df & kws & loop_evs & Hread & Hcol & -> & Hev)];
    [inversion Hin|].
  apply elem_of_cons in Hin as [Hin|Hin]; [discriminate|].
  rewrite Forall_forall in Hev. specialize (Hev _ Hin).
  destruct Hev as (-> & custom_id & audio_file & data & Henv & ->).
  split; [repeat split|].
  exists env_file, kf, env, api_key, api_url, custom_id, df.
  repeat (split; [assumption || reflexivity|]).
  split; [now rewrite <- Hcid|]. split; [reflexivity|].
  split; [exact Hread|exact Hcol].
Qed.

(** C10: the environment file is loaded from the path obtained by joining
    the first command-line argument onto the directory of the program's
    source file, in [load_env] and in every run of [main], and from no
    other path.  When the source file is [dir/base], that directory is
    [dir] and a relative argument is loaded from [dir/<argument>] (from
    [/<argument>] when the source file lies in the root); the path is
    absolute, hence independent of the current working directory,
    whenever the script's own path is absolute. *)
Theorem dotenv_path_relative_to_script X s :
  let script_dir := OsPath.dirname (script_file X) in
  (forall env_file keys,
      exists evs,
        trace (snd (load_env X env_file keys s)) =
        (trace s ++ EvLoadDotenv (OsPath.join script_dir env_file) :: evs)%list /\
        forall p, EvLoadDotenv p ∉ evs) /\
  (forall env_file keywords_filepath,
      argv X !! 1%nat = Some env_file ->
      argv X !! 2%nat = Some keywords_filepath ->
      exists evs,
        trace (snd (main X s)) =
        (trace s ++ EvLoadDotenv (OsPath.join script_dir env_file) :: evs)%list /\
        forall p, EvLoadDotenv p ∉ evs) /\
  (forall env_file,
      PyStr.startswith OsPath.sep env_file = false -> script_dir <> "" ->
      OsPath.join script_dir env_file =
      if PyStr.endswith OsPath.sep script_dir
      then script_dir +:+ env_file
      else script_dir +:+ "/" +:+ env_file) /\
  (PyStr.startswith OsPath.sep (script_file X) = true ->
   forall env_file,
     PyStr.startswith OsPath.sep (OsPath.join script_dir env_file) = true) /\
  (forall dir base,
      script_file X = dir +:+ String OsPath.sep base ->
      dir <> "" ->
      PyStr.endswith OsPath.sep dir = false ->
      PyStr.contains OsPath.sep base = false ->
      script_dir = dir /\
      forall env_file,
        PyStr.startswith OsPath.sep env_file = false ->
        OsPath.join script_dir env_file = dir +:+ "/" +:+ env_file) /\
  (forall base,
      script_file X = String OsPath.sep base ->
      PyStr.contains OsPath.sep base = false ->
      script_dir = "/" /\
      forall env_file,
        PyStr.startswith OsPath.sep env_file = false ->
        OsPath.join script_dir env_file = "/" +:+ env_file).
Proof.
  intros script_dir. split; [|split; [|split; [|split; [|split]]]].
  - intros env_file keys. rewrite load_env_unfold.
    set (s1 := loaded X env_file s).
    assert (Hs1 : trace s1 =
                  (trace s ++ [EvLoadDotenv (OsPath.join script_dir env_file)])%list)
      by apply loaded_trace.
    destruct (load_env_loop_cases keys ∅ s1)
      as [(_ & _ & _ & env & ->)|(k & _ & [[_ ->]|[_ ->]])];
      cbn [snd log trace]; rewrite Hs1, <- ?app_assoc; eexists;
      (split; [reflexivity|]); intros p Hp;
      repeat (apply elem_of_cons in Hp as [Hp|Hp]; [discriminate|]);
      inversion Hp.
  - intros env_file kf H1 H2.
    destruct (main_trace X s) as (evs & Ht & Hshape).
    destruct Hshape as [[_ [H|H]]|(env_file' & kf' & rest & H1' & H2' & -> & Hrest)];
      [congruence|congruence|].
    assert (env_file' = env_file) as -> by congruence.
    exists rest. split; [exact Ht|]. intros p Hp.
    destruct Hrest as [(line & ->)|(env & api_key & api_url & rest' & _ & _ & _ & _
                                    & Hrest)].
    { apply elem_of_cons in Hp as [Hp|Hp]; [discriminate|inversion Hp]. }
    cbv zeta in Hrest. destruct Hrest as (-> & Hrest').
    apply elem_of_cons in Hp as [Hp|Hp]; [discriminate|].
    apply elem_of_cons in Hp as [Hp|Hp]; [discriminate|].
    destruct Hrest' as [->|(df & kws & loop_evs & _ & _ & -> & Hev)];
      [inversion Hp|].
    apply elem_of_cons in Hp as [Hp|Hp]; [discriminate|].
    rewrite Forall_forall in Hev. exact (Hev _ Hp).
  - intros env_file Hrel Hdir. now apply join_relative.
  - intros Habs env_file. apply join_absolute. now apply dirname_absolute.
  - intros dir base Hfile Hdir Hend Hbase.
    assert (Hsd : script_dir = dir).
    { unfold script_dir. rewrite Hfile. now apply dirname_split. }
    split; [exact Hsd|]. intros env_file Hrel.
    rewrite Hsd, join_relative by assumption. now rewrite Hend.
  - intros base Hfile Hbase.
    assert (Hsd : script_dir = "/").
    { unfold script_dir. rewrite Hfile. now apply dirname_root_entry. }
    split; [exact Hsd|]. intros env_file Hrel.
    rewrite Hsd, join_relative by (assumption || discriminate). reflexivity.
Qed.

(** The sample run loads the file that lies beside the script. *)
Example dotenv_path_sample :
  let X := sample_externals full_dotenv [] [] [] in
  script_file X = "/opt/stt/stt_recognize.py" /\
  argv X !! 1%nat = Some "ibm.env" /\
  hd_error (trace (snd (main X initial_state))) =
  Some (EvLoadDotenv "/opt/stt/ibm.env").
Proof. repeat split. Qed.

(** ** Further properties of the configuration loader *)

(** X1: once [load_dotenv] has returned, the validation loop of
    [load_env] (lines 18-31) returns normally exactly when the key list has
    no repetition and every key is present and non-empty in the
    environment; it then leaves the state as it found it.  In every other
    case it exits with status 1; the loop itself raises no exception. *)
Theorem load_env_loop_returns_iff (keys : list string) s :
  ((exists env, load_env_loop keys ∅ s = (Ok env, s)) <->
   (NoDup keys /\ Forall (present s) keys)) /\
  ((exists env, load_env_loop keys ∅ s = (Ok env, s)) \/
   fst (load_env_loop keys ∅ s) = Exited 1) /\
  (forall X env_file,
      load_env X env_file keys s = load_env_loop keys ∅ (loaded X env_file s)).
Proof.
  split; [|split; [|reflexivity]];
    destruct (load_env_loop_cases keys ∅ s)
      as [(Hp & Hnd & _ & env & Hrun)|(k & Hk & Hfail)].
  - split; [now intros _|]. intros _. now exists env.
  - assert (Hexit : fst (load_env_loop keys ∅ s) = Exited 1)
      by (destruct Hfail as [[_ ->]|[_ ->]]; reflexivity).
    split.
    + intros (env & Hrun). rewrite Hrun in Hexit. discriminate.
    + intros (Hnd & Hp). exfalso.
      destruct (load_env_loop_ok keys ∅ s Hp Hnd) as (env & Hrun & _);
        [set_solver|].
      rewrite Hrun in Hexit. discriminate.
  - left. now exists env.
  - right. destruct Hfail as [[_ ->]|[_ ->]]; reflexivity.
Qed.

(** X2: the last branch of the loop of [load_env] is dead: the
    diagnostic [Unexpected error on 'os.getenv(key)'.] is never printed. *)
Theorem load_env_never_unexpected X env_file keys s :
  exists evs,
    trace (snd (load_env X env_file keys s)) = (trace s ++ evs)%list /\
    EvPrint unexpected_msg ∉ evs.
Proof.
  rewrite load_env_unfold. set (s1 := loaded X env_file s).
  assert (Hs1 : trace s1 = (trace s ++ [EvLoadDotenv (dotenv_path_of X env_file)])%list)
    by apply loaded_trace.
  destruct (load_env_loop_cases keys ∅ s1)
    as [(_ & _ & _ & env & ->)|(k & _ & [[_ ->]|[_ ->]])];
    cbn [snd log trace]; rewrite Hs1, <- ?app_assoc; eexists;
    (split; [reflexivity|]); intros Hin;
    apply elem_of_cons in Hin as [Hin|Hin]; try discriminate;
    try (apply elem_of_cons in Hin as [Hin|Hin]; [|inversion Hin]);
    try inversion Hin.
Qed.

Lemma present_agree s s' k :
  environ s !! k = environ s' !! k -> present s k -> present s' k.
Proof. intros H (val & Hv & Hne). exists val. now rewrite <- H. Qed.

Lemma Forall_present_agree s s' (keys : list string) :
  (forall k, k ∈ keys -> environ s !! k = environ s' !! k) ->
  Forall (present s) keys -> Forall (present s') keys.
Proof.
  intros H. rewrite !Forall_forall. intros Hp k Hk.
  apply (present_agree s s' k); auto.
Qed.

(** The validation reads the environment at the listed keys only. *)
Lemma load_env_loop_agree keys env s s' :
  (forall k, k ∈ keys -> environ s !! k = environ s' !! k) ->
  fst (load_env_loop keys env s) = fst (load_env_loop keys env s').
Proof.
  revert env; induction keys as [|k keys IH]; intros env H; [reflexivity|].
  rewrite !load_env_loop_cons, <- (H k) by now left.
  destruct (environ s !! k) as [val|]; [|reflexivity].
  destruct (bool_decide (val = "")); [reflexivity|].
  destruct (bool_decide (k ∈ dom env)); [reflexivity|].
  apply IH. intros k' Hk'. apply H. now right.
Qed.

(** X3: variables outside the required-key list are ignored: two runs of
    [load_env] whose loaded environments agree on the listed keys end the
    same way, with the same mapping or the same exit status, whatever else
    the environments hold. *)
Theorem load_env_ignores_other_variables X X' env_file env_file' keys s s' :
  (forall k, k ∈ keys ->
     environ (loaded X env_file s) !! k = environ (loaded X' env_file' s') !! k) ->
  fst (load_env X env_file keys s) = fst (load_env X' env_file' keys s').
Proof.
  intros H. rewrite !load_env_unfold. now apply load_env_loop_agree.
Qed.

Lemma load_env_ignores_other_variables_witness :
  let X := sample_externals full_dotenv [] [] [] in
  let X' := sample_externals (<["debug" := Some "1"]> full_dotenv) [] [] [] in
  fst (load_env X "ibm.env" required_keys initial_state) =
  fst (load_env X' "ibm.env" required_keys
         (with_environ initial_state "HOME" "/root")).
Proof.
  intros X X'.
  apply (load_env_ignores_other_variables X X' "ibm.env" "ibm.env" required_keys).
  intros k Hk.
  repeat (apply elem_of_cons in Hk as [->|Hk]; [vm_compute; reflexivity|]).
  inversion Hk.
Defined.

(** X4: the mapping does not depend on the order of the key list: a
    permutation of the list is accepted exactly when the list is, and
    gives the same mapping. *)
Theorem load_env_order_irrelevant X env_file (keys keys' : list string) s env :
  keys ≡ₚ keys' ->
  load_env X env_file keys s = (Ok env, loaded X env_file s) ->
  load_env X env_file keys' s = (Ok env, loaded X env_file s).
Proof.
  intros Hperm. rewrite !load_env_unfold. set (s1 := loaded X env_file s).
  intros Hrun.
  destruct (load_env_loop_cases keys ∅ s1)
    as [(Hp & Hnd & Hf & _)|(k & _ & [[_ Hfail]|[_ Hfail]])];
    [|rewrite Hfail in Hrun; discriminate|rewrite Hfail in Hrun; discriminate].
  destruct (load_env_loop_ok keys ∅ s1 Hp Hnd Hf) as (env1 & Hrun1 & _ & Hin1 & Hout1).
  assert (env1 = env) as -> by congruence.
  assert (Hp' : Forall (present s1) keys') by now rewrite <- Hperm.
  assert (Hnd' : NoDup keys') by now rewrite <- Hperm.
  destruct (load_env_loop_ok keys' ∅ s1 Hp' Hnd') as (env2 & Hrun2 & _ & Hin2 & Hout2);
    [set_solver|].
  rewrite Hrun2. f_equal. f_equal. apply map_eq. intros k.
  destruct (decide (k ∈ keys)) as [Hk|Hk].
  - rewrite (Hin1 k Hk). apply Hin2. now rewrite <- Hperm.
  - rewrite (Hout1 k Hk). apply Hout2. now rewrite <- Hperm.
Qed.

Lemma load_env_order_irrelevant_witness :
  let X := sample_externals full_dotenv [] [] [] in
  exists env,
    load_env X "ibm.env" required_keys initial_state =
    (Ok env, loaded X "ibm.env" initial_state) /\
    load_env X "ibm.env" ["custom_id"; "base_lang"; "api_url"; "api_key"]
      initial_state = (Ok env, loaded X "ibm.env" initial_state).
Proof.
  intros X.
  destruct (load_env_loop_ok required_keys ∅ (loaded X "ibm.env" initial_state))
    as (env & Hrun & _); [all_present|no_dup|set_solver|].
  exists env. split; [exact Hrun|].
  apply (load_env_order_irrelevant X "ibm.env" required_keys
           ["custom_id"; "base_lang"; "api_url"; "api_key"] initial_state env);
    [|exact Hrun].
  exact (Permutation_rev required_keys).
Defined.

(** X5: a variable already set in the process environment takes
    precedence over the environment file: the mapping returned holds the
    process value, and when that value is the empty string the loader
    halts even though the file gives the key a value. *)
Theorem load_env_process_environment_first X env_file keys s key val :
  key ∈ keys ->
  environ s !! key = Some val ->
  (forall env s', load_env X env_file keys s = (Ok env, s') ->
     env !! key = Some val) /\
  (val = "" -> fst (load_env X env_file keys s) = Exited 1).
Proof.
  intros Hkey Hval.
  assert (Hloaded : environ (loaded X env_file s) !! key = Some val).
  { rewrite loaded_environ.
    destruct (dotenv_values X (dotenv_path_of X env_file)) as [d|]; [|exact Hval].
    now apply lookup_union_Some_l. }
  rewrite load_env_unfold. set (s1 := loaded X env_file s) in *.
  destruct (load_env_loop_cases keys ∅ s1)
    as [(Hp & Hnd & Hf & _)|(k & _ & Hfail)].
  - destruct (load_env_loop_ok keys ∅ s1 Hp Hnd Hf) as (env1 & Hrun1 & _ & Hin1 & _).
    split.
    + intros env s' Hrun. assert (env1 = env) as -> by congruence.
      now rewrite (Hin1 key Hkey).
    + intros ->. exfalso. rewrite Forall_forall in Hp.
      destruct (Hp key Hkey) as (v & Hv & Hne). congruence.
  - assert (Hexit : fst (load_env_loop keys ∅ s1) = Exited 1)
      by (destruct Hfail as [[_ ->]|[_ ->]]; reflexivity).
    split; [|now intros _].
    intros env s' Hrun. rewrite Hrun in Hexit. discriminate.
Qed.

Lemma load_env_process_environment_first_witness :
  let X := sample_externals full_dotenv [] [] [] in
  full_dotenv !! "api_key" = Some (Some "k-123") /\
  fst (load_env X "ibm.env" required_keys
         (with_environ initial_state "api_key" "")) = Exited 1.
Proof.
  intros X. split; [vm_compute; reflexivity|].
  apply (load_env_process_environment_first X "ibm.env" required_keys
           (with_environ initial_state "api_key" "") "api_key" "").
  - set_solver.
  - vm_compute. reflexivity.
  - reflexivity.
Defined.

(** ** Further properties of the paths *)

Lemma load_env_trace X env_file keys s :
  exists evs,
    trace (snd (load_env X env_file keys s)) =
    (trace s ++ EvLoadDotenv (dotenv_path_of X env_file) :: evs)%list.
Proof.
  rewrite load_env_unfold. set (s1 := loaded X env_file s).
  assert (Hs1 : trace s1 = (trace s ++ [EvLoadDotenv (dotenv_path_of X env_file)])%list)
    by apply loaded_trace.
  destruct (load_env_loop_cases keys ∅ s1)
    as [(_ & _ & _ & env & ->)|(k & _ & [[_ ->]|[_ ->]])];
    cbn [snd log trace]; rewrite Hs1, <- ?app_assoc; eexists; reflexivity.
Qed.

Lemma dirname_no_separator p :
  PyStr.contains OsPath.sep p = false -> OsPath.dirname p = "".
Proof.
  intros H. unfold OsPath.dirname, PyStr.rfind.
  rewrite (rfind_from_absent _ _ _ _ H).
  replace (Z.to_nat (-1 + 1)) with 0%nat by lia.
  now destruct p.
Qed.

(** X6: the script's directory plays no part in two cases: an absolute
    first argument is loaded as it is, and so is any argument when the
    script was started by its bare file name (its path has no directory
    part); the file is then looked up relative to the working directory. *)
Theorem load_env_path_is_argument X env_file keys s :
  PyStr.startswith OsPath.sep env_file = true \/
  PyStr.contains OsPath.sep (script_file X) = false ->
  exists evs,
    trace (snd (load_env X env_file keys s)) =
    (trace s ++ EvLoadDotenv env_file :: evs)%list.
Proof.
  intros H.
  assert (Hpath : dotenv_path_of X env_file = env_file).
  { unfold dotenv_path_of, OsPath.join. destruct H as [H|H].
    - now rewrite H.
    - rewrite (dirname_no_separator _ H).
      destruct (PyStr.startswith OsPath.sep env_file); reflexivity. }
  destruct (load_env_trace X env_file keys s) as (evs & Ht).
  exists evs. now rewrite Ht, Hpath.
Qed.

Lemma load_env_path_is_argument_witness :
  let X := started_as (sample_externals full_dotenv [] [] [])
             "stt_recognize.py" ["stt_recognize.py"; "ibm.env"; "keywords.xlsx"] in
  exists evs,
    trace (snd (load_env X "ibm.env" required_keys initial_state)) =
    (trace initial_state ++ EvLoadDotenv "ibm.env" :: evs)%list.
Proof.
  intros X.
  apply (load_env_path_is_argument X "ibm.env" required_keys initial_state).
  right. reflexivity.
Defined.

Lemma length_append a b :
  String.length (a +:+ b) = (String.length a + String.length b)%nat.
Proof.
  induction a as [|x a IH]; [reflexivity|].
  change (String x a +:+ b) with (String x (a +:+ b)).
  cbn [String.length]. now rewrite IH.
Qed.

Lemma append_inv_tail a b t : a +:+ t = b +:+ t -> a = b.
Proof.
  revert b; induction a as [|x a IH]; intros [|y b] H.
  - reflexivity.
  - apply (f_equal String.length) in H.
    change (String y b +:+ t) with (String y (b +:+ t)) in H.
    cbn [String.length] in H. rewrite !length_append in H.
    cbn [String.length] in H. lia.
  - apply (f_equal String.length) in H.
    change (String x a +:+ t) with (String x (a +:+ t)) in H.
    cbn [String.length] in H. rewrite !length_append in H.
    cbn [String.length] in H. lia.
  - change (String x (a +:+ t) = String y (b +:+ t)) in H.
    injection H as -> H. f_equal. now apply IH.
Qed.

Lemma append_inv_head a b t : t +:+ a = t +:+ b -> a = b.
Proof.
  induction t as [|x t IH]; [exact (fun H => H)|].
  change (String x (t +:+ a) = String x (t +:+ b) -> a = b).
  intros H. injection H as H. now apply IH.
Qed.

(** X7: two input names are given the same output path exactly when
    [os.path.splitext] gives them the same root: only then does one
    result overwrite the other. *)
Theorem json_path_collision transcripts_folder audio_file audio_file' :
  json_path transcripts_folder audio_file = json_path transcripts_folder audio_file'
  <-> fst (OsPath.splitext audio_file) = fst (OsPath.splitext audio_file').
Proof.
  unfold json_path. split; [|now intros ->].
  intros H. apply append_inv_head, append_inv_head in H.
  now apply append_inv_tail in H.
Qed.

Lemma all_char_snoc c s :
  PyStr.all_char c s = true -> String c s = s +:+ String c "".
Proof.
  induction s as [|x s IH]; [reflexivity|]. cbn [PyStr.all_char].
  intros H. apply andb_true_iff in H as [Hx Hs].
  apply Ascii.eqb_eq in Hx as ->.
  change (String c s +:+ String c "") with (String c (s +:+ String c "")).
  now rewrite <- IH.
Qed.

Lemma append_assoc a b c : (a +:+ b) +:+ c = a +:+ (b +:+ c).
Proof.
  induction a as [|x a IH]; [reflexivity|].
  change (String x ((a +:+ b) +:+ c) = String x (a +:+ (b +:+ c))).
  now rewrite IH.
Qed.

(** X8: a directory entry whose only dots are leading ones (a hidden
    file such as [.bashrc], or a name without any dot) has no extension to
    replace: its output path is the whole name followed by [.json]. *)
Theorem json_path_leading_dots transcripts_folder dots rest :
  PyStr.all_char OsPath.extsep dots = true ->
  PyStr.contains OsPath.extsep rest = false ->
  PyStr.contains OsPath.sep (dots +:+ rest) = false ->
  json_path transcripts_folder (dots +:+ rest) =
  transcripts_folder +:+ "/" +:+ dots +:+ rest +:+ ".json".
Proof.
  intros Hdots Hrest Hsep.
  assert (Hsplit : OsPath.splitext (dots +:+ rest) = (dots +:+ rest, "")).
  { destruct dots as [|x dots]; [now apply splitext_no_dot|].
    cbn [PyStr.all_char] in Hdots. apply andb_true_iff in Hdots as [Hx Hdots].
    apply Ascii.eqb_eq in Hx as ->.
    rewrite (all_char_snoc _ _ Hdots), append_assoc in *.
    change (String OsPath.extsep "" +:+ rest) with (String OsPath.extsep rest) in *.
    unfold OsPath.splitext, PyStr.rfind.
    rewrite (rfind_from_absent _ _ _ _ Hsep), (rfind_from_last _ _ _ _ _ Hrest).
    destruct (Z.gtb_spec (0 + Z.of_nat (String.length dots)) (-1)) as [_|H]; [|lia].
    replace (Z.to_nat (0 + Z.of_nat (String.length dots) - (-1 + 1)))
      with (String.length dots) by lia.
    replace (Z.to_nat (-1 + 1)) with 0%nat by lia.
    change (PyStr.drop 0 ?s) with s.
    now rewrite non_dot_before_append, Hdots. }
  unfold json_path. rewrite Hsplit. cbn [fst]. now rewrite append_assoc.
Qed.

Lemma json_path_leading_dots_witness :
  json_path json_folder ".bashrc" = "json/.bashrc.json".
Proof.
  apply (json_path_leading_dots json_folder "." "bashrc"); reflexivity.
Defined.

(** ** Further properties of the batch *)

(** X9: [save_json] touches at most its one target file: every other
    file and the environment are left as they were; when the target cannot
    be opened the error is raised and nothing is changed or printed; and
    whenever [save_json] returns normally the target holds the new
    document, whatever it held before, and the confirmation naming the
    target is the last line printed. *)
Theorem save_json_touches_one_file X data_json audio_file transcripts_folder s :
  let r := save_json X data_json audio_file transcripts_folder s in
  let json_pathfile := json_path transcripts_folder audio_file in
  environ (snd r) = environ s /\
  (forall p, p <> json_pathfile -> disk (snd r) !! p = disk s !! p) /\
  (forall e, open_w X s json_pathfile = Some e -> r = (Raised e, s)) /\
  (fst r = Ok tt ->
   disk (snd r) !! json_pathfile = Some data_json /\
   trace (snd r) =
     (trace s ++ [EvWrite json_pathfile data_json;
                  EvPrint ("'" +:+ json_pathfile +:+ "' was saved sucessful")])%list).
Proof.
  intros r json_pathfile. subst r.
  unfold save_json, bind, write_json, print, emit. fold json_pathfile.
  destruct (open_w X s json_pathfile) as [e|]; cbn [fst snd log environ disk trace].
  - split; [reflexivity|]. split; [reflexivity|]. split; [|discriminate].
    now intros e' [= <-].
  - split; [reflexivity|]. split; [|split; [discriminate|]].
    + intros p Hp. now apply lookup_insert_ne.
    + intros _. split; [apply lookup_insert_eq|]. now rewrite <- app_assoc.
Qed.

(** One regular entry that is processed without error: what the
    collaborators answered. *)
Lemma body_ok_inv_regular X env speech_to_text keywords audio_file s s' :
  isfile X (OsPath.join audios_folder audio_file) = true ->
  main_loop_body X env speech_to_text keywords audio_file s = (Ok tt, s') ->
  exists custom_id data data_json,
    env !! "custom_id" = Some custom_id /\
    open_rb X (OsPath.join audios_folder audio_file) = inr data /\
    recognize X s speech_to_text
      (request_of keywords custom_id audio_file data) = inr data_json /\
    s' = saved s speech_to_text
           (request_of keywords custom_id audio_file data) audio_file data_json.
Proof.
  intros Hfile Hrun. rewrite (body_regular _ _ _ _ _ _ Hfile) in Hrun.
  destruct (env !! "custom_id") as [custom_id|]; [|discriminate].
  destruct (open_rb X _) as [e|data]; [discriminate|]. cbv zeta in Hrun.
  destruct (recognize X s speech_to_text _) as [e|data_json] eqn:Hsvc;
    [discriminate|].
  destruct (open_w X _ _) as [e|]; [discriminate|].
  exists custom_id, data, data_json. repeat split; congruence.
Qed.

(** Whatever happens to one entry, only its own output path can change on
    disk. *)
Lemma body_disk X env speech_to_text keywords audio_file s p :
  p <> json_path json_folder audio_file ->
  disk (snd (main_loop_body X env speech_to_text keywords audio_file s)) !! p =
  disk s !! p.
Proof.
  intros Hp.
  destruct (isfile X (OsPath.join audios_folder audio_file)) eqn:Hfile.
  2:{ now rewrite (body_skip _ _ _ _ _ _ Hfile). }
  rewrite (body_regular _ _ _ _ _ _ Hfile).
  destruct (env !! "custom_id") as [custom_id|]; [|reflexivity].
  destruct (open_rb X _) as [e|data]; [reflexivity|]. cbv zeta.
  destruct (recognize X s speech_to_text _) as [e|data_json]; [reflexivity|].
  destruct (open_w X _ _) as [e|]; [reflexivity|].
  cbn [snd saved disk]. now apply lookup_insert_ne.
Qed.

Lemma body_disk_skip X env speech_to_text keywords audio_file s :
  isfile X (OsPath.join audios_folder audio_file) = false ->
  disk (snd (main_loop_body X env speech_to_text keywords audio_file s)) = disk s.
Proof. intros Hfile. now rewrite (body_skip _ _ _ _ _ _ Hfile). Qed.

(** Whatever the outcome of the loop, the disk changes at most at the
    output paths of the regular entries of the listing. *)
Lemma loop_disk X env speech_to_text keywords files s p :
  p ∉ map (json_path json_folder) (regular_files X files) ->
  disk (snd (for_each files (main_loop_body X env speech_to_text keywords) s)) !! p =
  disk s !! p.
Proof.
  revert s; induction files as [|f files IH]; intros s Hp; [reflexivity|].
  cbn [for_each]. unfold bind.
  assert (Hstep : disk (snd (main_loop_body X env speech_to_text keywords f s)) !! p
                  = disk s !! p /\
                  p ∉ map (json_path json_folder) (regular_files X files)).
  { unfold regular_files in Hp. cbn [List.filter] in Hp.
    destruct (isfile X (OsPath.join audios_folder f)) eqn:Hfile.
    - cbn [map] in Hp. apply not_elem_of_cons in Hp as [Hne Hp].
      split; [now apply body_disk|exact Hp].
    - split; [now rewrite body_disk_skip|exact Hp]. }
  destruct Hstep as [Hstep Hp'].
  destruct (main_loop_body X env speech_to_text keywords f s) as [[[]|e|n] s1];
    cbn [snd] in *; [|exact Hstep|exact Hstep].
  rewrite (IH s1 Hp'). exact Hstep.
Qed.

(** X10: a listing without regular files (an empty folder, or one that
    holds sub-directories only) is passed over: no request, no write, no
    change at all, and the loop ends normally. *)
Theorem loop_without_regular_files X env speech_to_text keywords files s :
  regular_files X files = [] ->
  for_each files (main_loop_body X env speech_to_text keywords) s = (Ok tt, s).
Proof.
  induction files as [|f files IH]; intros Hreg; [reflexivity|].
  unfold regular_files in Hreg. cbn [List.filter] in Hreg.
  destruct (isfile X (OsPath.join audios_folder f)) eqn:Hfile; [discriminate|].
  cbn [for_each]. rewrite (bind_ok _ _ _ _ _ (body_skip _ _ _ _ _ _ Hfile)).
  now apply IH.
Qed.

Lemma loop_without_regular_files_witness :
  let X := sample_externals full_dotenv ["sub"; "old"] ["sub"; "old"] [] in
  for_each ["sub"; "old"] (main_loop_body X ∅ {| authenticator := "k"; service_url := "u" |} [])
    initial_state = (Ok tt, initial_state).
Proof.
  intros X. apply (loop_without_regular_files X). reflexivity.
Defined.

(** X11: when the output file of an entry cannot be created, the loop
    stops with that error after the recognition request for the entry was
    made: the answer is lost, nothing is written or printed for the entry,
    and no later entry is requested or written. *)
Theorem batch_stops_at_write_failure
    X env speech_to_text keywords (pre : list string) audio_file post
    s s1 custom_id data data_json e :
  env !! "custom_id" = Some custom_id ->
  for_each pre (main_loop_body X env speech_to_text keywords) s = (Ok tt, s1) ->
  isfile X (OsPath.join audios_folder audio_file) = true ->
  open_rb X (OsPath.join audios_folder audio_file) = inr data ->
  let args := request_of keywords custom_id audio_file data in
  recognize X s1 speech_to_text args = inr data_json ->
  open_w X (log s1 (EvRecognize speech_to_text args))
    (json_path json_folder audio_file) = Some e ->
  let r := for_each (pre ++ audio_file :: post)%list
             (main_loop_body X env speech_to_text keywords) s in
  r = (Raised e, log s1 (EvRecognize speech_to_text args)) /\
  requested (trace (snd r)) =
    (requested (trace s) ++
     map (OsPath.join audios_folder) (regular_files X pre) ++
     [OsPath.join audios_folder audio_file])%list /\
  written (trace (snd r)) =
    (written (trace s) ++ map (json_path json_folder) (regular_files X pre))%list /\
  disk (snd r) = disk s1.
Proof.
  intros Hcid Hpre Hfile Hopen args Hsvc Hwrite r. subst r.
  rewrite for_each_app, (bind_ok _ _ _ _ _ Hpre). cbn [for_each].
  assert (Hbody : main_loop_body X env speech_to_text keywords audio_file s1 =
                  (Raised e, log s1 (EvRecognize speech_to_text args))).
  { rewrite (body_regular _ _ _ _ _ _ Hfile), Hcid, Hopen. cbv zeta.
    fold args. now rewrite Hsvc, Hwrite. }
  rewrite (bind_raised _ _ _ _ _ Hbody). cbn [fst snd log trace disk].
  destruct (loop_ok_inv _ _ _ _ _ _ _ Hpre) as (Hreq & Hwr & _ & _).
  split; [reflexivity|]. split; [|split; [|reflexivity]].
  - rewrite requested_app, Hreq, <- app_assoc. reflexivity.
  - rewrite written_app, Hwr. cbn [written]. now rewrite app_nil_r.
Qed.

Lemma batch_stops_at_write_failure_witness :
  let X := on_faulty_disk
             (sample_externals full_dotenv ["a.mp3"; "b.mp3"; "c.mp3"] [] [])
             [] ["json/b.json"] in
  let env : gmap string string := {["custom_id" := "c-1"]} in
  let c := {| authenticator := "k-123"; service_url := "https://stt.example" |} in
  let r := for_each ["a.mp3"; "b.mp3"; "c.mp3"]
             (main_loop_body X env c []) initial_state in
  fst r = Raised (OSError "json/b.json") /\
  requested (trace (snd r)) = ["audios/a.mp3"; "audios/b.mp3"] /\
  written (trace (snd r)) = ["json/a.json"].
Proof.
  intros X env c.
  pose proof (batch_stops_at_write_failure X env c [] ["a.mp3"] "b.mp3" ["c.mp3"]
                initial_state
                (saved initial_state c (request_of [] "c-1" "a.mp3" []) "a.mp3"
                   sample_result)
                "c-1" [] sample_result (OSError "json/b.json")
                eq_refl eq_refl eq_refl eq_refl eq_refl eq_refl) as H.
  cbv zeta in H. destruct H as (Hout & Hreq & Hwr & _).
  split; [exact (f_equal fst Hout)|]. split; [exact Hreq|exact Hwr].
Defined.

(** X12: when the audio file of an entry cannot be opened, the loop
    stops with that error before any request is made for the entry; the
    state is the one the earlier entries left. *)
Theorem batch_stops_at_unreadable_audio
    X env speech_to_text keywords (pre : list string) audio_file post
    s s1 custom_id e :
  env !! "custom_id" = Some custom_id ->
  for_each pre (main_loop_body X env speech_to_text keywords) s = (Ok tt, s1) ->
  isfile X (OsPath.join audios_folder audio_file) = true ->
  open_rb X (OsPath.join audios_folder audio_file) = inl e ->
  let r := for_each (pre ++ audio_file :: post)%list
             (main_loop_body X env speech_to_text keywords) s in
  r = (Raised e, s1) /\
  requested (trace (snd r)) =
    (requested (trace s) ++
     map (OsPath.join audios_folder) (regular_files X pre))%list /\
  written (trace (snd r)) =
    (written (trace s) ++ map (json_path json_folder) (regular_files X pre))%list.
Proof.
  intros Hcid Hpre Hfile Hopen r. subst r.
  rewrite for_each_app, (bind_ok _ _ _ _ _ Hpre). cbn [for_each].
  assert (Hbody : main_loop_body X env speech_to_text keywords audio_file s1 =
                  (Raised e, s1)).
  { now rewrite (body_regular _ _ _ _ _ _ Hfile), Hcid, Hopen. }
  rewrite (bind_raised _ _ _ _ _ Hbody). cbn [snd].
  destruct (loop_ok_inv _ _ _ _ _ _ _ Hpre) as (Hreq & Hwr & _ & _).
  split; [reflexivity|]. split; [exact Hreq|exact Hwr].
Qed.

Lemma batch_stops_at_unreadable_audio_witness :
  let X := on_faulty_disk
             (sample_externals full_dotenv ["a.mp3"; "b.mp3"; "c.mp3"] [] [])
             ["audios/b.mp3"] [] in
  let env : gmap string string := {["custom_id" := "c-1"]} in
  let c := {| authenticator := "k-123"; service_url := "https://stt.example" |} in
  let r := for_each ["a.mp3"; "b.mp3"; "c.mp3"]
             (main_loop_body X env c []) initial_state in
  fst r = Raised (OSError "audios/b.mp3") /\
  requested (trace (snd r)) = ["audios/a.mp3"] /\
  written (trace (snd r)) = ["json/a.json"].
Proof.
  intros X env c.
  pose proof (batch_stops_at_unreadable_audio X env c [] ["a.mp3"] "b.mp3" ["c.mp3"]
                initial_state
                (saved initial_state c (request_of [] "c-1" "a.mp3" []) "a.mp3"
                   sample_result)
                "c-1" (OSError "audios/b.mp3")
                eq_refl eq_refl eq_refl eq_refl) as H.
  cbv zeta in H. destruct H as (Hout & Hreq & Hwr).
  split; [exact (f_equal fst Hout)|]. split; [exact Hreq|exact Hwr].
Defined.

(** X13: the results are passed through verbatim: after a loop that ran
    to its end over entries with pairwise distinct output paths, the
    output file of each regular entry holds a document the service
    returned for the request made for that entry. *)
Theorem outputs_hold_the_answers
    X env speech_to_text keywords (files : list string) s s' :
  for_each files (main_loop_body X env speech_to_text keywords) s = (Ok tt, s') ->
  NoDup (map (json_path json_folder) (regular_files X files)) ->
  forall audio_file, audio_file ∈ regular_files X files ->
    exists custom_id data s0 data_json,
      env !! "custom_id" = Some custom_id /\
      open_rb X (OsPath.join audios_folder audio_file) = inr data /\
      recognize X s0 speech_to_text
        (request_of keywords custom_id audio_file data) = inr data_json /\
      disk s' !! json_path json_folder audio_file = Some data_json.
Proof.
  revert s; induction files as [|f files IH]; intros s Hrun Hnd g Hg;
    [inversion Hg|].
  cbn [for_each] in Hrun. unfold bind in Hrun.
  destruct (main_loop_body X env speech_to_text keywords f s) as [[[]|e|n] s1]
    eqn:Hbody; try discriminate.
  unfold regular_files in Hnd, Hg. cbn [List.filter] in Hnd, Hg.
  destruct (isfile X (OsPath.join audios_folder f)) eqn:Hfile.
  2:{ now apply (IH s1). }
  cbn [map] in Hnd. apply NoDup_cons in Hnd as [Hfresh Hnd].
  apply elem_of_cons in Hg as [->|Hg]; [|now apply (IH s1)].
  destruct (body_ok_inv_regular _ _ _ _ _ _ _ Hfile Hbody)
    as (custom_id & data & data_json & Hcid & Hopen & Hsvc & ->).
  exists custom_id, data, s, data_json.
  split; [exact Hcid|]. split; [exact Hopen|]. split; [exact Hsvc|].
  pose proof (loop_disk X env speech_to_text keywords files
                (saved s speech_to_text
                   (request_of keywords custom_id f data) f data_json)
                (json_path json_folder f) Hfresh) as Hkeep.
  rewrite Hrun in Hkeep. cbn [snd] in Hkeep. rewrite Hkeep.
  cbn [saved disk]. apply lookup_insert_eq.
Qed.

Lemma outputs_hold_the_answers_witness :
  let entries := ["a.mp3"; "b.wav"; "sub"] in
  let X := sample_externals full_dotenv entries ["sub"] [] in
  let env : gmap string string := {["custom_id" := "c-1"]} in
  let c := {| authenticator := "k-123"; service_url := "https://stt.example" |} in
  let s' := snd (for_each entries (main_loop_body X env c []) initial_state) in
  exists custom_id data s0 data_json,
    env !! "custom_id" = Some custom_id /\
    open_rb X (OsPath.join audios_folder "b.wav") = inr data /\
    recognize X s0 c (request_of [] custom_id "b.wav" data) = inr data_json /\
    disk s' !! json_path json_folder "b.wav" = Some data_json.
Proof.
  intros entries X env c s'.
  apply (outputs_hold_the_answers X env c [] entries initial_state s').
  - vm_compute. reflexivity.
  - vm_compute. no_dup.
  - vm_compute. set_solver.
Defined.

(** ** Further properties of a whole run *)

(** [main] after a successful validation, by cases on what the
    spreadsheet parser and the listing answer. *)
Lemma main_stages X s env_file keywords_filepath :
  argv X !! 1%nat = Some env_file ->
  argv X !! 2%nat = Some keywords_filepath ->
  Forall (present (loaded X env_file s)) required_keys ->
  exists env api_key api_url,
    load_env X env_file required_keys s = (Ok env, loaded X env_file s) /\
    env !! "api_key" = Some api_key /\
    env !! "api_url" = Some api_url /\
    env !! "custom_id" = environ (loaded X env_file s) !! "custom_id" /\
    let speech_to_text := {| authenticator := api_key; service_url := api_url |} in
    let s3 := log (log (loaded X env_file s) (EvClient speech_to_text))
                  (EvReadExcel keywords_filepath 0) in
    main X s =
    match read_excel X keywords_filepath 0 with
    | inl e => (Raised e, s3)
    | inr df =>
        match iloc_column df 0 with
        | inl e => (Raised e, s3)
        | inr keywords =>
            match listdir X audios_folder with
            | inl e => (Raised e, log s3 (EvListdir audios_folder))
            | inr files =>
                for_each files (main_loop_body X env speech_to_text keywords)
                  (log s3 (EvListdir audios_folder))
            end
        end
    end.
Proof.
  intros H1 H2 Hp. set (s1 := loaded X env_file s) in *.
  destruct (load_env_loop_ok required_keys ∅ s1 Hp) as (env & Hrun & _ & Hval & _);
    [no_dup|set_solver|].
  assert (Hload : load_env X env_file required_keys s = (Ok env, s1)) by exact Hrun.
  assert (Hget : forall k, k ∈ required_keys ->
                   exists val, env !! k = Some val /\ env !! k = environ s1 !! k).
  { intros k Hk. rewrite Forall_forall in Hp.
    destruct (Hp k Hk) as (val & Hv & _). exists val.
    split; rewrite (Hval k Hk); [exact Hv|reflexivity]. }
  destruct (Hget "api_key") as (api_key & Hkey & _); [set_solver|].
  destruct (Hget "api_url") as (api_url & Hurl & _); [set_solver|].
  destruct (Hget "custom_id") as (custom_id & _ & Hcid); [set_solver|].
  exists env, api_key, api_url. split; [exact Hload|]. split; [exact Hkey|].
  split; [exact Hurl|]. split; [exact Hcid|]. cbv zeta.
  rewrite (main_after_load_env X s env_file keywords_filepath H1 H2).
  rewrite (bind_ok _ _ _ _ _ Hload).
  unfold dict_get. rewrite Hkey. unfold bind at 1, ret at 1.
  rewrite Hurl. unfold bind at 1, ret at 1.
  unfold instantiate_stt, extract_keywords, os_listdir, emit.
  cbv beta iota delta [ret bind lift raise].
  destruct (read_excel X keywords_filepath 0) as [e|df]; [reflexivity|].
  destruct (iloc_column df 0) as [e|keywords]; [reflexivity|].
  destruct (listdir X audios_folder) as [e|files]; [reflexivity|].
  destruct (for_each files _ _) as [[[]|e|n] s']; reflexivity.
Qed.

(** [main] when the validation fails. *)
Lemma main_config_failure X s env_file keywords_filepath :
  argv X !! 1%nat = Some env_file ->
  argv X !! 2%nat = Some keywords_filepath ->
  ~ Forall (present (loaded X env_file s)) required_keys ->
  exists line, main X s = (Exited 1, log (loaded X env_file s) (EvPrint line)).
Proof.
  intros H1 H2 Hp. set (s1 := loaded X env_file s) in *.
  rewrite (main_after_load_env X s env_file keywords_filepath H1 H2).
  destruct (load_env_loop_cases required_keys ∅ s1)
    as [(Hp' & _)|(k & _ & Hfail)]; [contradiction|].
  assert (Hexit : exists line,
             load_env X env_file required_keys s = (Exited 1, log s1 (EvPrint line))).
  { rewrite load_env_unfold. fold s1.
    destruct Hfail as [[_ ->]|[_ ->]]; eexists; reflexivity. }
  destruct Hexit as (line & Hexit). exists line.
  now rewrite (bind_exited _ _ _ _ _ Hexit).
Qed.

Lemma Forall_present_dec s (keys : list string) :
  {Forall (present s) keys} + {~ Forall (present s) keys}.
Proof. apply Forall_dec. intros k. apply present_dec. Qed.

(** X14: a run started with fewer than two arguments raises
    [IndexError] at once: the environment file is not loaded, no client is
    built and nothing is changed. *)
Theorem main_missing_arguments X s :
  (length (argv X) < 3)%nat ->
  main X s = (Raised (IndexError "list index out of range"), s).
Proof.
  intros Hlen. unfold main, sys_argv.
  destruct (argv X !! 1%nat) as [env_file|] eqn:H1; [|reflexivity].
  destruct (argv X !! 2%nat) as [kf|] eqn:H2; [|reflexivity].
  apply lookup_lt_Some in H2. lia.
Qed.

Lemma main_missing_arguments_witness :
  let X := started_as (sample_externals full_dotenv ["a.mp3"] [] [])
             "/opt/stt/stt_recognize.py" ["stt_recognize.py"; "ibm.env"] in
  main X initial_state =
  (Raised (IndexError "list index out of range"), initial_state).
Proof.
  intros X. apply (main_missing_arguments X initial_state). cbn. lia.
Defined.

(** [main] hands over to the run after the client once the arguments are
    read, the configuration is loaded and the client is built. *)
Lemma main_hands_over X s :
  main X s =
  bind (sys_argv X 1)
       (fun env_file =>
          keywords_filepath <- sys_argv X 2 ;;
          env <- load_env X env_file required_keys ;;
          api_key <- dict_get env "api_key" ;;
          api_url <- dict_get env "api_url" ;;
          speech_to_text <- instantiate_stt api_key api_url ;;
          main_after_client X env speech_to_text keywords_filepath)%py s.
Proof. reflexivity. Qed.

(** The run after the client, by cases on what the spreadsheet parser and
    the listing answer. *)
Lemma main_after_client_cases X env speech_to_text keywords_filepath s :
  let s1 := log s (EvReadExcel keywords_filepath 0) in
  main_after_client X env speech_to_text keywords_filepath s =
  match read_excel X keywords_filepath 0 with
  | inl e => (Raised e, s1)
  | inr df =>
      match iloc_column df 0 with
      | inl e => (Raised e, s1)
      | inr keywords =>
          match listdir X audios_folder with
          | inl e => (Raised e, log s1 (EvListdir audios_folder))
          | inr files =>
              for_each files (main_loop_body X env speech_to_text keywords)
                (log s1 (EvListdir audios_folder))
          end
      end
  end.
Proof.
  unfold main_after_client, extract_keywords, os_listdir, emit.
  cbv beta iota zeta delta [ret bind lift raise].
  destruct (read_excel X keywords_filepath 0) as [e|df]; [reflexivity|].
  destruct (iloc_column df 0) as [e|keywords]; [reflexivity|].
  destruct (listdir X audios_folder) as [e|files]; [reflexivity|].
  destruct (for_each files _ _) as [[[]|e|n] s']; reflexivity.
Qed.



(** X16: once the client is built, when the keywords cannot be extracted
    (the spreadsheet cannot be read, or it has no first column) the run
    raises that error right after the attempt to read: the folder is not
    listed, no request is made and no file is written. *)
Theorem run_after_client_keywords_failure
    X env speech_to_text keywords_filepath s e :
  read_excel X keywords_filepath 0 = inl e \/
  (exists df, read_excel X keywords_filepath 0 = inr df /\ iloc_column df 0 = inl e) ->
  let r := main_after_client X env speech_to_text keywords_filepath s in
  r = (Raised e, log s (EvReadExcel keywords_filepath 0)) /\
  (EvListdir audios_folder ∉ drop (length (trace s)) (trace (snd r))) /\
  requested (trace (snd r)) = requested (trace s) /\
  written (trace (snd r)) = written (trace s) /\
  disk (snd r) = disk s.
Proof.
  intros Hfail r. subst r.
  rewrite main_after_client_cases. cbv zeta.
  assert (Hrun : match read_excel X keywords_filepath 0 with
                 | inl e0 => (Raised e0, log s (EvReadExcel keywords_filepath 0))
                 | inr df =>
                     match iloc_column df 0 with
                     | inl e0 => (Raised e0, log s (EvReadExcel keywords_filepath 0))
                     | inr keywords =>
                         match listdir X audios_folder with
                         | inl e0 =>
                             (Raised e0,
                              log (log s (EvReadExcel keywords_filepath 0))
                                  (EvListdir audios_folder))
                         | inr files =>
                             for_each files
                               (main_loop_body X env speech_to_text keywords)
                               (log (log s (EvReadExcel keywords_filepath 0))
                                    (EvListdir audios_folder))
                         end
                     end
                 end = (Raised e, log s (EvReadExcel keywords_filepath 0))).
  { destruct Hfail as [->|(df & -> & ->)]; reflexivity. }
  rewrite Hrun. cbn [snd log trace disk].
  split; [reflexivity|]. split; [|split; [|split; [|reflexivity]]].
  - rewrite drop_app_length. intros Hin.
    apply elem_of_cons in Hin as [Hin|Hin]; [discriminate|inversion Hin].
  - rewrite requested_app. cbn [requested]. now rewrite app_nil_r.
  - rewrite written_app. cbn [written]. now rewrite app_nil_r.
Qed.

Lemma run_after_client_keywords_failure_witness :
  let X := sample_externals full_dotenv ["a.mp3"] [] [] in
  let c := {| authenticator := "k-123"; service_url := "https://stt.example" |} in
  main_after_client X {["custom_id" := "c-1"]} c "missing.xlsx" initial_state =
  (Raised (ExcelError "missing.xlsx"),
   log initial_state (EvReadExcel "missing.xlsx" 0)).
Proof.
  intros X c.
  apply (run_after_client_keywords_failure X {["custom_id" := "c-1"]} c
           "missing.xlsx" initial_state (ExcelError "missing.xlsx")).
  left. reflexivity.
Defined.

(** X17: once the client is built and the keywords are extracted, when
    the folder [audios] cannot be listed the run raises that error: no
    request is made and no file is written. *)
Theorem run_after_client_listing_failure
    X env speech_to_text keywords_filepath df keywords s e :
  read_excel X keywords_filepath 0 = inr df ->
  iloc_column df 0 = inr keywords ->
  listdir X audios_folder = inl e ->
  let r := main_after_client X env speech_to_text keywords_filepath s in
  r = (Raised e, log (log s (EvReadExcel keywords_filepath 0))
                     (EvListdir audios_folder)) /\
  requested (trace (snd r)) = requested (trace s) /\
  written (trace (snd r)) = written (trace s) /\
  disk (snd r) = disk s.
Proof.
  intros Hread Hcol Hlist r. subst r.
  rewrite main_after_client_cases. cbv zeta. rewrite Hread, Hcol, Hlist.
  cbn [snd log trace disk]. split; [reflexivity|].
  rewrite !requested_app, !written_app. cbn [requested written].
  now rewrite !app_nil_r.
Qed.

Lemma run_after_client_listing_failure_witness :
  let X := without_folders (sample_externals full_dotenv [] [] []) in
  let c := {| authenticator := "k-123"; service_url := "https://stt.example" |} in
  main_after_client X {["custom_id" := "c-1"]} c "keywords.xlsx" initial_state =
  (Raised (OSError "audios"),
   log (log initial_state (EvReadExcel "keywords.xlsx" 0)) (EvListdir "audios")).
Proof.
  intros X c.
  apply (run_after_client_listing_failure X {["custom_id" := "c-1"]} c
           "keywords.xlsx" sample_frame [CStr "hola"; CStr "hola"; CInt 7]
           initial_state (OSError "audios")); reflexivity.
Defined.

Lemma loop_event_no_client env speech_to_text keywords evs :
  Forall (loop_event env speech_to_text keywords) evs -> clients evs = [].
Proof.
  induction 1 as [|ev evs Hev _ IH]; [reflexivity|].
  destruct ev; cbn [clients]; try exact IH. destruct Hev.
Qed.

(** X18: the client handle is built at most once in a run, and before
    any recognition request: what a run adds to the trace either holds no
    client and no request, or splits at the one client event, with no
    request before it and no client after it. *)
Theorem main_builds_one_client X s :
  exists evs,
    trace (snd (main X s)) = (trace s ++ evs)%list /\
    ((clients evs = [] /\ requested evs = []) \/
     exists pre speech_to_text post,
       evs = (pre ++ EvClient speech_to_text :: post)%list /\
       clients pre = [] /\ requested pre = [] /\ clients post = []).
Proof.
  destruct (main_trace X s) as (evs & Ht & Hshape).
  exists evs. split; [exact Ht|].
  destruct Hshape as [[-> _]|(env_file & kf & rest & _ & _ & -> & Hrest)];
    [now left|].
  destruct Hrest as [(line & ->)|(env & api_key & api_url & rest' & _ & _ & _ & _
                                  & Hrest)]; [now left|].
  cbv zeta in Hrest. destruct Hrest as (-> & Hrest'). right.
  exists [EvLoadDotenv (dotenv_path_of X env_file)],
         {| authenticator := api_key; service_url := api_url |},
         (EvReadExcel kf 0 :: rest').
  split; [reflexivity|]. split; [reflexivity|]. split; [reflexivity|].
  destruct Hrest' as [->|(df & kws & loop_evs & _ & _ & -> & Hev)]; [reflexivity|].
  cbn [clients]. now apply loop_event_no_client in Hev.
Qed.

(** X19: a run changes the disk at the output paths of the regular
    entries of the listing only, and the process environment through the
    load of the environment file only: a path that is not the output path
    of a regular file listed in [audios] holds afterwards what it held
    before (every path, when the folder cannot be listed), and the final
    environment is the initial one or the one [load_dotenv] left. *)
Theorem main_frame X s :
  (forall p,
      (forall files, listdir X audios_folder = inr files ->
         p ∉ map (json_path json_folder) (regular_files X files)) ->
      disk (snd (main X s)) !! p = disk s !! p) /\
  (environ (snd (main X s)) = environ s \/
   exists env_file, argv X !! 1%nat = Some env_file /\
                    environ (snd (main X s)) = environ (loaded X env_file s)).
Proof.
  assert (H1 : {a | argv X !! 1%nat = Some a} + {argv X !! 1%nat = None})
    by (destruct (argv X !! 1%nat); eauto).
  assert (H2 : {a | argv X !! 2%nat = Some a} + {argv X !! 2%nat = None})
    by (destruct (argv X !! 2%nat); eauto).
  destruct H1 as [[env_file H1]|H1].
  2:{ unfold main, sys_argv. rewrite H1. cbn. split; [reflexivity|now left]. }
  destruct H2 as [[kf H2]|H2].
  2:{ unfold main, sys_argv. rewrite H1, H2. cbn. split; [reflexivity|now left]. }
  destruct (Forall_present_dec (loaded X env_file s) required_keys) as [Hp|Hp].
  2:{ destruct (main_config_failure X s env_file kf H1 H2 Hp) as (line & ->).
      cbn [snd log disk environ]. split; [reflexivity|].
      right. now exists env_file. }
  destruct (main_stages X s env_file kf H1 H2 Hp)
    as (env & api_key & api_url & _ & _ & _ & _ & Hmain).
  cbv zeta in Hmain. rewrite Hmain.
  destruct (read_excel X kf 0) as [e|df].
  { cbn [snd log disk environ]. split; [reflexivity|]. right. now exists env_file. }
  destruct (iloc_column df 0) as [e|keywords].
  { cbn [snd log disk environ]. split; [reflexivity|]. right. now exists env_file. }
  destruct (listdir X audios_folder) as [e|files].
  { cbn [snd log disk environ]. split; [reflexivity|]. right. now exists env_file. }
  split.
  - intros p Hp'. rewrite loop_disk; [reflexivity|]. now apply Hp'.
  - right. exists env_file. split; [exact H1|].
    destruct (loop_trace X env {| authenticator := api_key; service_url := api_url |}
                keywords files
                (log (log (log (loaded X env_file s)
                   (EvClient {| authenticator := api_key; service_url := api_url |}))
                   (EvReadExcel kf 0)) (EvListdir audios_folder)))
      as (_ & _ & Henv & _).
    exact Henv.
Qed.

(** In the sample run over [a.mp3], [b.wav] and a sub-directory, a file
    of the output folder that belongs to no listed entry is kept. *)
Example main_frame_sample :
  let X := sample_externals full_dotenv ["a.mp3"; "b.wav"; "sub"] ["sub"] [] in
  let s := {| environ := ∅; disk := {["json/old.json" := JNull]}; trace := [] |} in
  disk (snd (main X s)) !! "json/old.json" = Some JNull.
Proof. vm_compute. reflexivity. Qed.

(** ** [print_json] *)

Lemma utf32_units_spec order text :
  Codec.utf32_units order text =
  if existsb Codec.is_surrogate text then inl Codec.UnicodeEncodeError
  else inr (flat_map (Codec.utf32_unit order) text).
Proof.
  induction text as [|cp text IH]; [reflexivity|].
  cbn [Codec.utf32_units existsb flat_map].
  destruct (Codec.is_surrogate cp); [reflexivity|]. cbn [orb].
  rewrite IH. now destruct (existsb Codec.is_surrogate text).
Qed.

(** No UTF-32 text with its byte order mark is valid UTF-8. *)
Lemma decode_utf8_of_utf32 order text data :
  Codec.encode_utf32 order text = inr data ->
  Codec.decode_utf8 data = inl Codec.UnicodeDecodeError.
Proof.
  unfold Codec.encode_utf32.
  destruct (Codec.utf32_units order text) as [e|bs]; [discriminate|].
  intros [= <-]. destruct order.
  - change (Codec.utf32_unit Codec.Little 65279) with [255; 254; 0; 0]. reflexivity.
  - change (Codec.utf32_unit Codec.Big 65279) with [0; 0; 254; 255]. reflexivity.
Qed.

(** X20: [print_json] never prints: the text is encoded as UTF-32, which
    starts with a byte order mark, and decoded with the default codec,
    UTF-8, which rejects it; the call raises [UnicodeDecodeError], or
    [UnicodeEncodeError] already when the text holds a surrogate, whatever
    the document and the byte order of the machine. *)
Theorem print_json_always_raises order json_dumps data_json :
  print_json order json_dumps data_json =
  inl (if existsb Codec.is_surrogate (json_dumps data_json)
       then Codec.UnicodeEncodeError else Codec.UnicodeDecodeError).
Proof.
  unfold print_json.
  destruct (Codec.encode_utf32 order (json_dumps data_json)) as [e|data] eqn:Henc.
  - unfold Codec.encode_utf32 in Henc. rewrite utf32_units_spec in Henc.
    destruct (existsb Codec.is_surrogate (json_dumps data_json));
      [congruence|discriminate].
  - rewrite (decode_utf8_of_utf32 _ _ _ Henc).
    unfold Codec.encode_utf32 in Henc. rewrite utf32_units_spec in Henc.
    destruct (existsb Codec.is_surrogate (json_dumps data_json));
      [discriminate|reflexivity].
Qed.

(** The decoder against the encoder: every sequence of code points that
    UTF-8 can carry is read back from its encoding. *)

Ltac range_facts :=
  unfold Codec.in_range;
  repeat match goal with
         | |- context [(?a =? ?b)%Z] => destruct (Z.eqb_spec a b)
         end;
  repeat match goal with
         | |- context [(?a <=? ?b)%Z] => destruct (Z.leb_spec a b)
         end;
  cbn [andb]; try reflexivity; exfalso; Z.div_mod_to_equations; lia.

Lemma decode_utf8_unit cp rest :
  Codec.scalar cp ->
  Codec.decode_utf8 (Codec.utf8_unit cp ++ rest) =
  match Codec.decode_utf8 rest with
  | inl e => inl e
  | inr text => inr (cp :: text)
  end.
Proof.
  intros [Hrange Hsur]. unfold Codec.is_surrogate in Hsur.
  assert (Hcp : (cp < 0xD800 \/ 0xDFFF < cp)%Z).
  { apply andb_false_iff in Hsur as [H|H]; apply Z.leb_gt in H; lia. }
  clear Hsur. unfold Codec.utf8_unit.
  destruct (Z.ltb_spec cp 0x80) as [H1|H1].
  { cbn [app Codec.decode_utf8].
    replace (Codec.in_range 0 127 cp) with true by (symmetry; range_facts).
    reflexivity. }
  destruct (Z.ltb_spec cp 0x800) as [H2|H2].
  { cbn [app Codec.decode_utf8].
    replace (Codec.in_range 0 127 (192 + cp / 64)) with false
      by (symmetry; range_facts).
    replace (Codec.in_range 194 223 (192 + cp / 64)) with true
      by (symmetry; range_facts).
    replace (Codec.in_range 128 191 (128 + cp mod 64)) with true
      by (symmetry; range_facts).
    replace ((192 + cp / 64 - 192) * 64 + (128 + cp mod 64 - 128))%Z with cp
      by (Z.div_mod_to_equations; lia).
    reflexivity. }
  destruct (Z.ltb_spec cp 0x10000) as [H3|H3].
  { cbn [app Codec.decode_utf8].
    replace (Codec.in_range 0 127 (224 + cp / 4096)) with false
      by (symmetry; range_facts).
    replace (Codec.in_range 194 223 (224 + cp / 4096)) with false
      by (symmetry; range_facts).
    replace (Codec.in_range 224 239 (224 + cp / 4096)) with true
      by (symmetry; range_facts).
    cbv zeta.
    replace (Codec.in_range (if (224 + cp / 4096 =? 224)%Z then 160 else 128)
               (if (224 + cp / 4096 =? 237)%Z then 159 else 191)
               (128 + (cp / 64) mod 64)) with true
      by (symmetry; range_facts).
    replace (Codec.in_range 128 191 (128 + cp mod 64)) with true
      by (symmetry; range_facts).
    cbn [andb].
    replace ((224 + cp / 4096 - 224) * 4096
             + (128 + (cp / 64) mod 64 - 128) * 64
             + (128 + cp mod 64 - 128))%Z with cp
      by (Z.div_mod_to_equations; lia).
    reflexivity. }
  cbn [app Codec.decode_utf8].
  replace (Codec.in_range 0 127 (240 + cp / 262144)) with false
    by (symmetry; range_facts).
  replace (Codec.in_range 194 223 (240 + cp / 262144)) with false
    by (symmetry; range_facts).
  replace (Codec.in_range 224 239 (240 + cp / 262144)) with false
    by (symmetry; range_facts).
  replace (Codec.in_range 240 244 (240 + cp / 262144)) with true
    by (symmetry; range_facts).
  cbv zeta.
  replace (Codec.in_range (if (240 + cp / 262144 =? 240)%Z then 144 else 128)
             (if (240 + cp / 262144 =? 244)%Z then 143 else 191)
             (128 + (cp / 4096) mod 64)) with true
    by (symmetry; range_facts).
  replace (Codec.in_range 128 191 (128 + (cp / 64) mod 64)) with true
    by (symmetry; range_facts).
  replace (Codec.in_range 128 191 (128 + cp mod 64)) with true
    by (symmetry; range_facts).
  cbn [andb].
  replace ((240 + cp / 262144 - 240) * 262144
           + (128 + (cp / 4096) mod 64 - 128) * 4096
           + (128 + (cp / 64) mod 64 - 128) * 64
           + (128 + cp mod 64 - 128))%Z with cp
    by (Z.div_mod_to_equations; lia).
  reflexivity.
Qed.

Lemma decode_utf8_encode text :
  Forall Codec.scalar text ->
  Codec.decode_utf8 (flat_map Codec.utf8_unit text) = inr text.
Proof.
  induction 1 as [|cp text Hcp _ IH]; [reflexivity|].
  cbn [flat_map]. now rewrite (decode_utf8_unit cp _ Hcp), IH.
Qed.
